(** * Threshold-based temporary layer input processor

    A shallow embedding of [src/input_processor_threshold_temp_layer.c]
    (ZMK input processor) and the verification of its specification.

    The C code keeps its state in a device data block (one slot per layer),
    reads the kernel clock, arms and cancels delayable work items and calls
    the keymap to activate and deactivate layers.  Here every handler is a
    pure function from the state before the call (and the clock value it
    would read) to the state after it and the list of keymap commands it
    issued, in order. *)

From Stdlib Require Import ZArith Lia Bool List.
From stdpp Require Import base list.
Import ListNotations.

Local Open Scope Z_scope.

(** ** Machine integers

    [int] and [int32_t] are 32 bits wide on the targets of the firmware.
    [int], [int32_t], [int16_t] and [int64_t] are two's complement: a
    conversion to one of them keeps the low bits, and a signed operation
    whose result leaves the range (which C leaves undefined) wraps around,
    as the compiled code does.  [uint8_t] keeps the low 8 bits.  [>>] on an
    [int] is the arithmetic shift, [Z.shiftr]. *)

Definition wrap_signed (bits z : Z) : Z :=
  (z + 2 ^ (bits - 1)) mod 2 ^ bits - 2 ^ (bits - 1).

Definition int16_of (z : Z) : Z := wrap_signed 16 z.
Definition int32_of (z : Z) : Z := wrap_signed 32 z.
Definition int64_of (z : Z) : Z := wrap_signed 64 z.
Definition uint8_of (z : Z) : Z := z mod 2 ^ 8.

Definition INT_MAX : Z := 2147483647.
Definition INT_MIN : Z := -2147483648.

(** [abs] of <stdlib.h> on a 32-bit [int]. *)
Definition c_abs (x : Z) : Z := int32_of (Z.abs x).

(** ** Constants

    [MAX_LAYERS] is defined in the source file.  The three event codes come
    from Zephyr's <input-event-codes.h>, which the source includes. *)

Definition MAX_LAYERS : nat := 16.

Definition INPUT_EV_REL : Z := 2.
Definition INPUT_REL_X : Z := 0.
Definition INPUT_REL_Y : Z := 1.

(** ** Data model *)

(** [struct threshold_temp_layer_config]; [excluded_positions_len] is the
    length of the list, whose entries are [uint8_t] values. *)
Record threshold_temp_layer_config := {
  require_prior_idle_ms : Z;
  excluded_positions : list Z
}.

(** [struct threshold_temp_layer_layer_data].  The delayable work item is
    modelled by what the kernel knows about it: [None] when it is not
    scheduled, [Some ms] when it is pending with the delay [K_MSEC(ms)] it
    was last (re)scheduled with. *)
Record threshold_temp_layer_layer_data := {
  accumulated_distance : Z;
  active : bool;
  disable_work : option Z
}.

(** [struct threshold_temp_layer_data], together with the two function-local
    [static int]s of [threshold_temp_layer_handle_event], which live as long
    as the device data and are shared by all calls. *)
Record threshold_temp_layer_data := {
  last_tap_time : Z;
  layers : list threshold_temp_layer_layer_data;
  pending_dx : Z;
  pending_dy : Z
}.

(** [struct input_event], the fields the processor reads. *)
Record input_event := {
  type : Z;
  code : Z;
  value : Z
}.

(** [struct zmk_position_state_changed], the fields the listener reads. *)
Record zmk_position_state_changed := {
  position : Z;
  state : bool
}.

(** Calls into the keymap, the only outputs of the processor. *)
Inductive keymap_command :=
| zmk_keymap_layer_activate (layer : nat)
| zmk_keymap_layer_deactivate (layer : nat).

(** ** The code *)

Definition calculate_distance (dx dy : Z) : Z :=
  let abs_dx := c_abs dx in
  let abs_dy := c_abs dy in
  let max_val := if abs_dx >? abs_dy then abs_dx else abs_dy in
  let min_val := if abs_dx >? abs_dy then abs_dy else abs_dx in
  int32_of (max_val + Z.shiftr min_val 1).

(** What the timeout handler and the key listener store in a slot they
    deactivate; [work] is the state of the slot's work item afterwards. *)
Definition deactivated (work : option Z) : threshold_temp_layer_layer_data :=
  {| accumulated_distance := 0; active := false; disable_work := work |}.

Definition set_layers (s : threshold_temp_layer_data)
    (ls : list threshold_temp_layer_layer_data) : threshold_temp_layer_data :=
  {| last_tap_time := last_tap_time s; layers := ls;
     pending_dx := pending_dx s; pending_dy := pending_dy s |}.

(** The loop of [layer_disable_work_handler]: [n] iterations remain, [i] is
    the loop variable, [slot] the slot whose work item fired. *)
Fixpoint disable_loop (n i slot : nat)
    (ls : list threshold_temp_layer_layer_data)
  : list threshold_temp_layer_layer_data * list keymap_command :=
  match n with
  | O => (ls, [])
  | S n' =>
      match ls !! slot with
      | Some layer_data =>
          if (i =? slot)%nat && active layer_data then
            (<[slot := deactivated (disable_work layer_data)]> ls,
             [zmk_keymap_layer_deactivate i])
          else disable_loop n' (S i) slot ls
      | None => disable_loop n' (S i) slot ls
      end
  end.

Definition layer_disable_work_handler (slot : nat)
    (s : threshold_temp_layer_data)
  : threshold_temp_layer_data * list keymap_command :=
  let '(ls, out) := disable_loop MAX_LAYERS 0 slot (layers s) in
  (set_layers s ls, out).

(** The accumulation branch of the event handler, on the slot's data. *)
Definition accumulate (layer : nat) (activation_threshold distance : Z)
    (layer_data : threshold_temp_layer_layer_data)
  : threshold_temp_layer_layer_data * list keymap_command :=
  if active layer_data then (layer_data, [])
  else
    let acc := int32_of (accumulated_distance layer_data + distance) in
    if acc >=? activation_threshold then
      ({| accumulated_distance := acc; active := true;
          disable_work := disable_work layer_data |},
       [zmk_keymap_layer_activate layer])
    else
      ({| accumulated_distance := acc; active := false;
          disable_work := disable_work layer_data |}, []).

(** [k_work_reschedule] when the slot is active and the timeout positive. *)
Definition rearm (timeout : Z) (layer_data : threshold_temp_layer_layer_data)
  : threshold_temp_layer_layer_data :=
  if active layer_data && (timeout >? 0) then
    {| accumulated_distance := accumulated_distance layer_data;
       active := active layer_data;
       disable_work := Some timeout |}
  else layer_data.

(** [now] is the value [k_uptime_get] returns during the call; the three
    parameters are [uint32_t].  The array has [MAX_LAYERS] entries, so the
    lookup of a slot below [MAX_LAYERS] finds one. *)
Definition threshold_temp_layer_handle_event
    (cfg : threshold_temp_layer_config) (now : Z) (event : input_event)
    (param1 param2 param3 : Z) (s : threshold_temp_layer_data)
  : threshold_temp_layer_data * list keymap_command :=
  let layer := uint8_of param1 in
  let timeout := int16_of param2 in
  let activation_threshold := int32_of param3 in
  if layer >=? Z.of_nat MAX_LAYERS then (s, [])
  else
    match layers s !! Z.to_nat layer with
    | None => (s, [])
    | Some layer_data =>
        if negb (active layer_data) && (require_prior_idle_ms cfg >? 0)
           && (int64_of (now - last_tap_time s) <? require_prior_idle_ms cfg)
        then (s, [])
        else if (type event =? INPUT_EV_REL)
                && ((code event =? INPUT_REL_X)
                    || (code event =? INPUT_REL_Y))
        then
          let dx := if code event =? INPUT_REL_X
                    then value event else pending_dx s in
          let dy := if code event =? INPUT_REL_X then pending_dy s
                    else if code event =? INPUT_REL_Y
                         then value event else pending_dy s in
          let '(layer_data1, out) :=
            accumulate (Z.to_nat layer) activation_threshold
                       (calculate_distance dx dy) layer_data in
          ({| last_tap_time := last_tap_time s;
              layers := <[Z.to_nat layer := rearm timeout layer_data1]>
                          (layers s);
              pending_dx := 0;
              pending_dy := 0 |}, out)
        else (s, [])
    end.

(** The first loop of [handle_position_state_changed], with its early
    return. *)
Fixpoint position_excluded (excluded : list Z) (pos : Z) : bool :=
  match excluded with
  | [] => false
  | p :: rest => if p =? pos then true else position_excluded rest pos
  end.

(** The second loop of [handle_position_state_changed]: [n] iterations
    remain, [i] is the loop variable. *)
Fixpoint deactivate_loop (n i : nat)
    (ls : list threshold_temp_layer_layer_data)
  : list threshold_temp_layer_layer_data * list keymap_command :=
  match n with
  | O => (ls, [])
  | S n' =>
      match ls !! i with
      | Some layer_data =>
          if active layer_data then
            let '(ls', out) :=
              deactivate_loop n' (S i) (<[i := deactivated None]> ls) in
            (ls', zmk_keymap_layer_deactivate i :: out)
          else deactivate_loop n' (S i) ls
      | None => deactivate_loop n' (S i) ls
      end
  end.

(** The listener, for an event that is a position state change ([ev] is not
    [NULL]); [now] is the value [k_uptime_get] returns during the call. *)
Definition handle_position_state_changed
    (cfg : threshold_temp_layer_config) (now : Z)
    (ev : zmk_position_state_changed) (s : threshold_temp_layer_data)
  : threshold_temp_layer_data * list keymap_command :=
  if position_excluded (excluded_positions cfg) (position ev) then (s, [])
  else if state ev then
    let '(ls, out) := deactivate_loop MAX_LAYERS 0 (layers s) in
    ({| last_tap_time := now; layers := ls;
        pending_dx := pending_dx s; pending_dy := pending_dy s |}, out)
  else (s, []).

(** [threshold_temp_layer_init], and the initialisers of the two statics. *)
Definition threshold_temp_layer_init : threshold_temp_layer_data :=
  {| last_tap_time := 0;
     layers := replicate MAX_LAYERS (deactivated None);
     pending_dx := 0;
     pending_dy := 0 |}.

(** ** The processor as a machine

    The kernel drives the processor with three kinds of calls. *)

Definition clear_work (ld : threshold_temp_layer_layer_data)
  : threshold_temp_layer_layer_data :=
  {| accumulated_distance := accumulated_distance ld;
     active := active ld;
     disable_work := None |}.

(** The delay of the work item of [slot] expires (or the item was already
    queued when a cancellation came): the kernel takes the item off its
    timeout list and runs the handler. *)
Definition work_expire (slot : nat) (s : threshold_temp_layer_data)
  : threshold_temp_layer_data * list keymap_command :=
  layer_disable_work_handler slot
    (set_layers s (alter clear_work slot (layers s))).

Inductive operation :=
| motion_sample (now : Z) (event : input_event) (param1 param2 param3 : Z)
| key_event (now : Z) (ev : zmk_position_state_changed)
| timer_fire (slot : nat).

Definition run_operation (cfg : threshold_temp_layer_config)
    (op : operation) (s : threshold_temp_layer_data)
  : threshold_temp_layer_data * list keymap_command :=
  match op with
  | motion_sample now event param1 param2 param3 =>
      threshold_temp_layer_handle_event cfg now event param1 param2 param3 s
  | key_event now ev => handle_position_state_changed cfg now ev s
  | timer_fire slot => work_expire slot s
  end.

(** A run: the operations in order, the commands concatenated. *)
Fixpoint run_operations (cfg : threshold_temp_layer_config)
    (ops : list operation) (s : threshold_temp_layer_data)
  : threshold_temp_layer_data * list keymap_command :=
  match ops with
  | [] => (s, [])
  | op :: rest =>
      let '(s1, out1) := run_operation cfg op s in
      let '(s2, out2) := run_operations cfg rest s1 in
      (s2, out1 ++ out2)
  end.

(** The states the processor can be in after initialisation, when every
    operation it is driven with satisfies [allowed]. *)
Inductive reachable (cfg : threshold_temp_layer_config)
    (allowed : operation -> Prop) : threshold_temp_layer_data -> Prop :=
| reachable_init : reachable cfg allowed threshold_temp_layer_init
| reachable_step s op :
    reachable cfg allowed s -> allowed op ->
    reachable cfg allowed (fst (run_operation cfg op s)).

(** The slot a call with [param1] works on. *)
Definition slot_of (param1 : Z) : nat := Z.to_nat (uint8_of param1).

(** The invariants of the representation: the array has [MAX_LAYERS]
    entries, and the two statics are zero between calls. *)
Definition well_formed (s : threshold_temp_layer_data) : Prop :=
  length (layers s) = MAX_LAYERS /\ pending_dx s = 0 /\ pending_dy s = 0.

(** A relative motion sample on one axis. *)
Definition rel_x (v : Z) : input_event :=
  {| type := INPUT_EV_REL; code := INPUT_REL_X; value := v |}.
Definition rel_y (v : Z) : input_event :=
  {| type := INPUT_EV_REL; code := INPUT_REL_Y; value := v |}.

Definition is_motion (event : input_event) : bool :=
  (type event =? INPUT_EV_REL)
  && ((code event =? INPUT_REL_X) || (code event =? INPUT_REL_Y)).

(** The magnitude the handler computes for a sample when the statics are
    zero on entry: the other axis is 0. *)
Definition sample_magnitude (event : input_event) : Z :=
  if code event =? INPUT_REL_X
  then calculate_distance (value event) 0
  else calculate_distance 0 (value event).

(** The idle gate lets a call at [now] through, [last] being the time of
    the last key press. *)
Definition idle_gate_open (cfg : threshold_temp_layer_config)
    (last now : Z) : bool :=
  negb ((require_prior_idle_ms cfg >? 0)
        && (int64_of (now - last) <? require_prior_idle_ms cfg)).

(** Timestamped samples delivered to one binding, in order. *)
Definition feed (cfg : threshold_temp_layer_config)
    (param1 param2 param3 : Z) (samples : list (Z * input_event))
    (s : threshold_temp_layer_data)
  : threshold_temp_layer_data * list keymap_command :=
  run_operations cfg
    (map (fun '(now, event) =>
            motion_sample now event param1 param2 param3) samples) s.

(** The sum the accumulator would hold after the samples, in unbounded
    arithmetic, starting from [a]. *)
Definition running_sum (a : Z) (samples : list (Z * input_event)) : Z :=
  fold_left (fun acc '(_, event) => acc + sample_magnitude event) samples a.

(** Some sample among the first [k] brings the running sum to [T]. *)
Definition crossed (T a : Z) (samples : list (Z * input_event)) (k : nat)
  : Prop :=
  exists j, (1 <= j <= k)%nat /\ T <= running_sum a (take j samples).

Definition slot_active (s : threshold_temp_layer_data) (slot : nat) : bool :=
  match layers s !! slot with
  | Some ld => active ld
  | None => false
  end.

Definition slot_distance (s : threshold_temp_layer_data) (slot : nat) : Z :=
  match layers s !! slot with
  | Some ld => accumulated_distance ld
  | None => 0
  end.

(** ** Notions used in the statements *)

(** The value the specification gives for the magnitude, in unbounded
    arithmetic. *)
Definition magnitude_formula (dx dy : Z) : Z :=
  Z.max (Z.abs dx) (Z.abs dy) + Z.min (Z.abs dx) (Z.abs dy) / 2.

Definition active_at (ls : list threshold_temp_layer_layer_data) (j : nat)
  : bool :=
  match ls !! j with
  | Some ld => active ld
  | None => false
  end.

Definition reset_if_active (ld : threshold_temp_layer_layer_data)
  : threshold_temp_layer_layer_data :=
  if active ld then deactivated None else ld.

(** The indices among [i], ..., [i + n - 1] whose slot is active. *)
Definition active_slots (ls : list threshold_temp_layer_layer_data)
    (i n : nat) : list nat :=
  List.filter (active_at ls) (seq i n).

(** A state with two slots active at once (1, with its timer pending, and
    6) and some distance accumulated in the inactive slot 4. *)
Definition two_active : threshold_temp_layer_data :=
  {| last_tap_time := 7;
     layers :=
       <[1%nat := {| accumulated_distance := 110; active := true;
                     disable_work := Some 500 |}]>
         (<[6%nat := {| accumulated_distance := 30; active := true;
                        disable_work := None |}]>
            (<[4%nat := {| accumulated_distance := 12; active := false;
                           disable_work := None |}]>
               (layers threshold_temp_layer_init)));
     pending_dx := 0; pending_dy := 0 |}.

(** The two static buffers as the handler has them when it computes the
    distance. *)
Definition buffered_dx (s : threshold_temp_layer_data) (event : input_event)
  : Z :=
  if code event =? INPUT_REL_X then value event else pending_dx s.

Definition buffered_dy (s : threshold_temp_layer_data) (event : input_event)
  : Z :=
  if code event =? INPUT_REL_X then pending_dy s
  else if code event =? INPUT_REL_Y then value event else pending_dy s.

(** The idle gate stops a call: the slot is inactive, an idle time is
    required and it has not yet passed. *)
Definition gate_closed (cfg : threshold_temp_layer_config)
    (s : threshold_temp_layer_data) (now : Z)
    (ld : threshold_temp_layer_layer_data) : bool :=
  negb (active ld) && (require_prior_idle_ms cfg >? 0)
  && (int64_of (now - last_tap_time s) <? require_prior_idle_ms cfg).

(** The configuration with the idle requirement switched off. *)
Definition without_idle_gate (cfg : threshold_temp_layer_config)
  : threshold_temp_layer_config :=
  {| require_prior_idle_ms := 0;
     excluded_positions := excluded_positions cfg |}.

(** What an operation leaves in slot [j] of the 16, which held [ld]
    before. *)
Definition slot_after (cfg : threshold_temp_layer_config) (op : operation)
    (s : threshold_temp_layer_data) (j : nat)
    (ld : threshold_temp_layer_layer_data)
  : threshold_temp_layer_layer_data :=
  match op with
  | motion_sample now event param1 param2 param3 =>
      if bool_decide (slot_of param1 = j)
         && negb (gate_closed cfg s now ld) && is_motion event
      then rearm (int16_of param2)
             (fst (accumulate j (int32_of param3)
                     (calculate_distance (buffered_dx s event)
                                         (buffered_dy s event)) ld))
      else ld
  | key_event now ev =>
      if negb (position_excluded (excluded_positions cfg) (position ev))
         && state ev
      then reset_if_active ld else ld
  | timer_fire slot =>
      if bool_decide (slot = j)
      then if active ld then deactivated None else clear_work ld
      else ld
  end.

(** Every slot is bound with one timeout: [timeout_ms slot] is the signed
    16-bit value the handler reads from [param2] in the calls for that
    slot. *)
Definition uses_binding (timeout_ms : nat -> Z) (op : operation) : Prop :=
  match op with
  | motion_sample _ _ param1 param2 _ =>
      int16_of param2 = timeout_ms (slot_of param1)
  | _ => True
  end.

Definition timer_matches (timeout_ms : nat -> Z) (slot : nat)
    (ld : threshold_temp_layer_layer_data) : Prop :=
  is_Some (disable_work ld) <-> active ld = true /\ 0 < timeout_ms slot.

(** A run that activates slot 1 (threshold 100, timeout 500 ms), has a key
    press reset it, and accumulates again. *)
Definition sample_run : list operation :=
  [ motion_sample 10 (rel_x 60) 1 500 100;
    motion_sample 20 (rel_y (-50)) 1 500 100;
    key_event 30 {| position := 5; state := true |};
    motion_sample 40 (rel_x 70) 1 500 100;
    motion_sample 50 (rel_x 70) 1 500 100 ].

(** A sample the slot takes while it is inactive: a relative X or Y event
    that passes the idle gate and whose delta has an absolute value that
    fits an [int]. *)
Definition accepted (cfg : threshold_temp_layer_config) (last : Z)
    (sample : Z * input_event) : Prop :=
  is_motion (snd sample) = true
  /\ idle_gate_open cfg last (fst sample) = true
  /\ Z.abs (value (snd sample)) <= INT_MAX.

(** An operation whose sample, if it has one for [slot], has a delta other
    than [INT_MIN] and leaves the sum within the range of the accumulator,
    which holds [ld]. *)
Definition sample_fits (op : operation) (slot : nat)
    (ld : threshold_temp_layer_layer_data) : Prop :=
  match op with
  | motion_sample _ event param1 _ _ =>
      slot_of param1 = slot ->
      Z.abs (value event) <= INT_MAX
      /\ INT_MIN <= accumulated_distance ld
      /\ accumulated_distance ld + Z.abs (value event) <= INT_MAX
  | _ => True
  end.

(** The sum of the absolute deltas of the samples. *)
Definition abs_sum (samples : list (Z * input_event)) : Z :=
  fold_right (fun sample acc => Z.abs (value (snd sample)) + acc) 0 samples.

(** ** The keymap, as the commands drive it *)

(** Whether layer [j] is on after the commands, when it was [on] before. *)
Fixpoint keymap_after (on : bool) (j : nat) (out : list keymap_command)
  : bool :=
  match out with
  | [] => on
  | zmk_keymap_layer_activate l :: rest =>
      keymap_after (if (l =? j)%nat then true else on) j rest
  | zmk_keymap_layer_deactivate l :: rest =>
      keymap_after (if (l =? j)%nat then false else on) j rest
  end.

(** Every command for layer [j] changes its state: no activate for a layer
    that is on, no deactivate for one that is off. *)
Fixpoint toggles (on : bool) (j : nat) (out : list keymap_command) : bool :=
  match out with
  | [] => true
  | zmk_keymap_layer_activate l :: rest =>
      if (l =? j)%nat then negb on && toggles true j rest
      else toggles on j rest
  | zmk_keymap_layer_deactivate l :: rest =>
      if (l =? j)%nat then on && toggles false j rest
      else toggles on j rest
  end.

Definition command_layer (c : keymap_command) : nat :=
  match c with
  | zmk_keymap_layer_activate l => l
  | zmk_keymap_layer_deactivate l => l
  end.

(** A motion sample whose delta is at most [D] in absolute value, for a
    binding whose threshold, as the handler reads it, is at most [B]. *)
Definition bounded_op (B D : Z) (op : operation) : Prop :=
  match op with
  | motion_sample _ event _ _ param3 =>
      Z.abs (value event) <= D /\ int32_of param3 <= B
  | _ => True
  end.

(** The configuration with no excluded position. *)
Definition without_exclusions (cfg : threshold_temp_layer_config)
  : threshold_temp_layer_config :=
  {| require_prior_idle_ms := require_prior_idle_ms cfg;
     excluded_positions := [] |}.

(** ** The single-layer revision

    The revision of the processor listed after the documentation in
    [README.md]: one layer, whose number, timeout and threshold are part of
    the configuration, and one accumulator.  [calculate_distance] and the
    exclusion loop are the same code as above. *)

Module SingleLayer.

Record threshold_temp_layer_config := {
  layer : Z;
  timeout : Z;
  activation_threshold : Z;
  require_prior_idle_ms : Z;
  excluded_positions : list Z
}.

(** [struct threshold_temp_layer_data], with the two statics of the event
    handler; the work item is modelled as above. *)
Record threshold_temp_layer_data := {
  accumulated_distance : Z;
  layer_active : bool;
  last_tap_time : Z;
  layer_disable_work : option Z;
  pending_dx : Z;
  pending_dy : Z
}.

Definition layer_disable_work_handler (cfg : threshold_temp_layer_config)
    (data : threshold_temp_layer_data)
  : threshold_temp_layer_data * list keymap_command :=
  if layer_active data then
    ({| accumulated_distance := 0; layer_active := false;
        last_tap_time := last_tap_time data;
        layer_disable_work := layer_disable_work data;
        pending_dx := pending_dx data; pending_dy := pending_dy data |},
     [zmk_keymap_layer_deactivate (Z.to_nat (layer cfg))])
  else (data, []).

Definition threshold_temp_layer_handle_event
    (cfg : threshold_temp_layer_config) (now : Z) (event : input_event)
    (data : threshold_temp_layer_data)
  : threshold_temp_layer_data * list keymap_command :=
  if negb (layer_active data) && (require_prior_idle_ms cfg >? 0)
     && (int64_of (now - last_tap_time data) <? require_prior_idle_ms cfg)
  then (data, [])
  else if (type event =? INPUT_EV_REL)
          && ((code event =? INPUT_REL_X) || (code event =? INPUT_REL_Y))
  then
    let dx := if code event =? INPUT_REL_X
              then value event else pending_dx data in
    let dy := if code event =? INPUT_REL_X then pending_dy data
              else if code event =? INPUT_REL_Y
                   then value event else pending_dy data in
    let acc := if layer_active data then accumulated_distance data
               else int32_of (accumulated_distance data
                              + calculate_distance dx dy) in
    let activates := negb (layer_active data)
                     && (acc >=? activation_threshold cfg) in
    let on := layer_active data || activates in
    ({| accumulated_distance := acc; layer_active := on;
        last_tap_time := last_tap_time data;
        layer_disable_work :=
          if on && (timeout cfg >? 0) then Some (timeout cfg)
          else layer_disable_work data;
        pending_dx := 0; pending_dy := 0 |},
     if activates then [zmk_keymap_layer_activate (Z.to_nat (layer cfg))]
     else [])
  else (data, []).

Definition handle_position_state_changed
    (cfg : threshold_temp_layer_config) (now : Z)
    (ev : zmk_position_state_changed) (data : threshold_temp_layer_data)
  : threshold_temp_layer_data * list keymap_command :=
  if position_excluded (excluded_positions cfg) (position ev) then (data, [])
  else if state ev then
    if layer_active data then
      ({| accumulated_distance := 0; layer_active := false;
          last_tap_time := now; layer_disable_work := None;
          pending_dx := pending_dx data; pending_dy := pending_dy data |},
       [zmk_keymap_layer_deactivate (Z.to_nat (layer cfg))])
    else
      ({| accumulated_distance := accumulated_distance data;
          layer_active := layer_active data;
          last_tap_time := now;
          layer_disable_work := layer_disable_work data;
          pending_dx := pending_dx data; pending_dy := pending_dy data |}, [])
  else (data, []).

Definition threshold_temp_layer_init : threshold_temp_layer_data :=
  {| accumulated_distance := 0; layer_active := false; last_tap_time := 0;
     layer_disable_work := None; pending_dx := 0; pending_dy := 0 |}.

(** The delay of the work item expires: the kernel takes it off its timeout
    list and runs the handler. *)
Definition work_expire (cfg : threshold_temp_layer_config)
    (data : threshold_temp_layer_data)
  : threshold_temp_layer_data * list keymap_command :=
  layer_disable_work_handler cfg
    {| accumulated_distance := accumulated_distance data;
       layer_active := layer_active data;
       last_tap_time := last_tap_time data;
       layer_disable_work := None;
       pending_dx := pending_dx data; pending_dy := pending_dy data |}.

Inductive operation :=
| motion_sample (now : Z) (event : input_event)
| key_event (now : Z) (ev : zmk_position_state_changed)
| timer_fire.

Definition run_operation (cfg : threshold_temp_layer_config)
    (op : operation) (data : threshold_temp_layer_data)
  : threshold_temp_layer_data * list keymap_command :=
  match op with
  | motion_sample now event => threshold_temp_layer_handle_event cfg now event data
  | key_event now ev => handle_position_state_changed cfg now ev data
  | timer_fire => work_expire cfg data
  end.

Fixpoint run_operations (cfg : threshold_temp_layer_config)
    (ops : list operation) (data : threshold_temp_layer_data)
  : threshold_temp_layer_data * list keymap_command :=
  match ops with
  | [] => (data, [])
  | op :: rest =>
      let '(d1, out1) := run_operation cfg op data in
      let '(d2, out2) := run_operations cfg rest d1 in
      (d2, out1 ++ out2)
  end.

End SingleLayer.

(** The multi-layer processor driven as the single-layer one is: the
    configuration without the binding, and every sample delivered with the
    binding [param1], [param2], [param3]. *)
Definition multi_config (cfg1 : SingleLayer.threshold_temp_layer_config)
  : threshold_temp_layer_config :=
  {| require_prior_idle_ms := SingleLayer.require_prior_idle_ms cfg1;
     excluded_positions := SingleLayer.excluded_positions cfg1 |}.

Definition multi_operation (cfg1 : SingleLayer.threshold_temp_layer_config)
    (param2 param3 : Z) (op : SingleLayer.operation) : operation :=
  match op with
  | SingleLayer.motion_sample now event =>
      motion_sample now event (SingleLayer.layer cfg1) param2 param3
  | SingleLayer.key_event now ev => key_event now ev
  | SingleLayer.timer_fire => timer_fire (Z.to_nat (SingleLayer.layer cfg1))
  end.

(** The single-layer state [d] is the slot of its layer in the multi-layer
    state [s], whose other slots are inactive. *)
Definition embeds (cfg1 : SingleLayer.threshold_temp_layer_config)
    (d : SingleLayer.threshold_temp_layer_data)
    (s : threshold_temp_layer_data) : Prop :=
  last_tap_time s = SingleLayer.last_tap_time d
  /\ pending_dx s = SingleLayer.pending_dx d
  /\ pending_dy s = SingleLayer.pending_dy d
  /\ length (layers s) = MAX_LAYERS
  /\ layers s !! Z.to_nat (SingleLayer.layer cfg1)
     = Some {| accumulated_distance := SingleLayer.accumulated_distance d;
               active := SingleLayer.layer_active d;
               disable_work := SingleLayer.layer_disable_work d |}
  /\ forall j ld,
       j <> Z.to_nat (SingleLayer.layer cfg1) ->
       layers s !! j = Some ld -> active ld = false.

(** ** Samples of one slot among other operations *)




(** The sum up to and including the first sample that brings it to [T]
    fits an [int]. *)
Definition fits_until_crossing (T a : Z) (samples : list (Z * input_event))
  : Prop :=
  forall j, (1 <= j <= length samples)%nat ->
    (forall i, (1 <= i < j)%nat -> a + abs_sum (take i samples) < T) ->
    a + abs_sum (take j samples) <= INT_MAX.


(** * Verification *)

(** ** Machine integers *)

Lemma int32_of_small z : INT_MIN <= z <= INT_MAX -> int32_of z = z.
Proof.
  unfold int32_of, wrap_signed, INT_MIN, INT_MAX. intros Hz.
  change (2 ^ (32 - 1)) with 2147483648. change (2 ^ 32) with 4294967296.
  rewrite Z.mod_small by lia. lia.
Qed.

Lemma int32_of_range z : INT_MIN <= int32_of z <= INT_MAX.
Proof.
  unfold int32_of, wrap_signed, INT_MIN, INT_MAX.
  change (2 ^ (32 - 1)) with 2147483648. change (2 ^ 32) with 4294967296.
  pose proof (Z.mod_pos_bound (z + 2147483648) 4294967296 ltac:(lia)). lia.
Qed.

Lemma int64_of_small z :
  - 2 ^ 63 <= z < 2 ^ 63 -> int64_of z = z.
Proof.
  unfold int64_of, wrap_signed. intros Hz.
  change (64 - 1) with 63. change (2 ^ 64) with (2 * 2 ^ 63).
  rewrite Z.mod_small by lia. lia.
Qed.

Lemma c_abs_small x : Z.abs x <= INT_MAX -> c_abs x = Z.abs x.
Proof.
  intros Hx. unfold c_abs. apply int32_of_small.
  unfold INT_MIN, INT_MAX in *. lia.
Qed.

(** ** The approximate magnitude *)

Lemma calculate_distance_fits dx dy :
  magnitude_formula dx dy <= INT_MAX ->
  calculate_distance dx dy = magnitude_formula dx dy.
Proof.
  unfold magnitude_formula. intros Hfit.
  assert (Hdiv : 0 <= Z.min (Z.abs dx) (Z.abs dy) / 2)
    by (apply Z.div_pos; lia).
  assert (Hx : Z.abs dx <= INT_MAX) by lia.
  assert (Hy : Z.abs dy <= INT_MAX) by lia.
  unfold calculate_distance.
  rewrite (c_abs_small dx Hx), (c_abs_small dy Hy).
  rewrite !Z.shiftr_div_pow2 by lia. change (2 ^ 1) with 2.
  destruct (Z.gtb_spec (Z.abs dx) (Z.abs dy)) as [Hgt | Hle].
  - rewrite Z.max_l, Z.min_r in * by lia.
    apply int32_of_small. unfold INT_MIN. lia.
  - rewrite Z.max_r, Z.min_l in * by lia.
    apply int32_of_small. unfold INT_MIN. lia.
Qed.

Lemma calculate_distance_axis v :
  Z.abs v <= INT_MAX ->
  calculate_distance v 0 = Z.abs v /\ calculate_distance 0 v = Z.abs v.
Proof.
  intros Hv.
  assert (Hf : magnitude_formula v 0 = Z.abs v /\
               magnitude_formula 0 v = Z.abs v).
  { unfold magnitude_formula. change (Z.abs 0) with 0.
    rewrite Z.max_l, Z.min_r, Z.max_r, Z.min_l by lia.
    change (0 / 2) with 0. lia. }
  destruct Hf as [Hf1 Hf2].
  split; rewrite calculate_distance_fits; lia.
Qed.

(** The result is an [int], so the formula is returned only when its value
    fits one. *)
Lemma calculate_distance_only_fits dx dy :
  calculate_distance dx dy = magnitude_formula dx dy ->
  magnitude_formula dx dy <= INT_MAX.
Proof.
  intros <-. unfold calculate_distance. apply int32_of_range.
Qed.

(** C2, as stated, fails: the function returns an [int], and for two deltas
    of [INT_MAX] the value of the formula does not fit one. *)
Lemma calculate_distance_overflow :
  INT_MIN <= 2147483647 <= INT_MAX /\
  magnitude_formula 2147483647 2147483647 = 3221225470 /\
  calculate_distance 2147483647 2147483647 = -1073741826 /\
  calculate_distance 2147483647 2147483647
    <> magnitude_formula 2147483647 2147483647.
Proof. vm_compute. repeat split; congruence. Qed.

(** C2 (amended): for every pair of deltas whose magnitude
    max(|dx|,|dy|) + floor(min(|dx|,|dy|) / 2) fits a 32-bit [int], the
    function returns that magnitude; it returns 5 for (3, 4), 8 for (8, 0)
    and 7 for (-6, 2). *)
Theorem calculate_distance_correct dx dy :
  magnitude_formula dx dy <= INT_MAX ->
  calculate_distance dx dy
    = Z.max (Z.abs dx) (Z.abs dy) + Z.min (Z.abs dx) (Z.abs dy) / 2
  /\ calculate_distance 3 4 = 5
  /\ calculate_distance 8 0 = 8
  /\ calculate_distance (-6) 2 = 7.
Proof.
  intros Hfit. split; [exact (calculate_distance_fits dx dy Hfit)|].
  repeat split; reflexivity.
Qed.

Lemma calculate_distance_correct_witness :
  magnitude_formula (-6) 2 <= INT_MAX /\ calculate_distance (-6) 2 = 7.
Proof.
  split; [vm_compute; discriminate|].
  exact (proj1 (calculate_distance_correct (-6) 2 ltac:(vm_compute; discriminate))).
Defined.

(** ** Small facts about the state *)

Lemma set_layers_same s : set_layers s (layers s) = s.
Proof. destruct s; reflexivity. Qed.

(** ** The timeout handler *)

Lemma disable_loop_spec n i slot ls :
  disable_loop n i slot ls =
  match ls !! slot with
  | Some ld =>
      if bool_decide (i <= slot < i + n)%nat && active ld
      then (<[slot := deactivated (disable_work ld)]> ls,
            [zmk_keymap_layer_deactivate slot])
      else (ls, [])
  | None => (ls, [])
  end.
Proof.
  revert i. induction n as [|n IH]; intros i; cbn [disable_loop].
  - destruct (ls !! slot) as [ld|]; [|reflexivity].
    rewrite bool_decide_eq_false_2 by lia. reflexivity.
  - destruct (ls !! slot) as [ld|] eqn:Hl.
    + destruct (Nat.eqb_spec i slot) as [-> | Hne]; cbn [andb].
      * rewrite bool_decide_eq_true_2 by lia.
        cbn [andb]. destruct (active ld) eqn:Ha; [reflexivity|].
        rewrite IH, andb_false_r. reflexivity.
      * rewrite IH.
        rewrite (bool_decide_ext (S i <= slot < S i + n)%nat
                                 (i <= slot < i + S n)%nat) by lia.
        reflexivity.
    + apply IH.
Qed.

Lemma layer_disable_work_handler_spec slot s :
  layer_disable_work_handler slot s =
  match layers s !! slot with
  | Some ld =>
      if bool_decide (slot < MAX_LAYERS)%nat && active ld
      then (set_layers s (<[slot := deactivated (disable_work ld)]> (layers s)),
            [zmk_keymap_layer_deactivate slot])
      else (s, [])
  | None => (s, [])
  end.
Proof.
  unfold layer_disable_work_handler. rewrite disable_loop_spec.
  destruct (layers s !! slot) as [ld|]; [|by rewrite set_layers_same].
  rewrite (bool_decide_ext (0 <= slot < 0 + MAX_LAYERS)%nat
                           (slot < MAX_LAYERS)%nat) by lia.
  destruct (bool_decide (slot < MAX_LAYERS)%nat && active ld);
    [reflexivity | by rewrite set_layers_same].
Qed.

Lemma alter_clear_work_done (l : list threshold_temp_layer_layer_data) i :
  (forall ld, l !! i = Some ld -> disable_work ld = None) ->
  alter clear_work i l = l.
Proof.
  intros Hnone. apply list_eq. intros j.
  destruct (decide (i = j)) as [<- | Hne]; [|by apply list_lookup_alter_ne].
  rewrite list_lookup_alter_eq.
  destruct (l !! i) as [ld|] eqn:Hl; [|reflexivity].
  cbn. f_equal. specialize (Hnone ld eq_refl).
  destruct ld as [acc act work]. cbn in Hnone. subst work. reflexivity.
Qed.

(** C7: the timeout handler run for a slot that is inactive changes no
    state and issues no command; so a second run for the same slot, after
    the first has deactivated it, leaves the state of the first run.  The
    same holds with the kernel's bookkeeping of the work item included. *)
Theorem layer_disable_work_handler_idempotent slot s :
  (slot_active s slot = false ->
   layer_disable_work_handler slot s = (s, []))
  /\ (let s1 := fst (layer_disable_work_handler slot s) in
      layer_disable_work_handler slot s1 = (s1, []))
  /\ (let s1 := fst (work_expire slot s) in
      work_expire slot s1 = (s1, [])).
Proof.
  assert (Hinactive : forall s0, slot_active s0 slot = false ->
            layer_disable_work_handler slot s0 = (s0, [])).
  { intros s0 H0. rewrite layer_disable_work_handler_spec.
    unfold slot_active in H0. destruct (layers s0 !! slot) as [ld|]; [|done].
    rewrite H0, andb_false_r. reflexivity. }
  assert (Htwice : forall s0,
            layer_disable_work_handler slot
              (fst (layer_disable_work_handler slot s0))
            = (fst (layer_disable_work_handler slot s0), [])).
  { intros s0.
    pose proof (layer_disable_work_handler_spec slot s0) as Hfirst.
    destruct (layers s0 !! slot) as [ld|] eqn:Hl.
    - destruct (bool_decide (slot < MAX_LAYERS)%nat && active ld) eqn:Hc.
      + rewrite Hfirst. cbn [fst]. apply Hinactive.
        unfold slot_active, set_layers; cbn [layers].
        rewrite list_lookup_insert_eq by (eapply lookup_lt_Some; eassumption).
        reflexivity.
      + rewrite Hfirst. exact Hfirst.
    - rewrite Hfirst. exact Hfirst. }
  split; [apply Hinactive|]. split; [apply Htwice|]. cbv zeta.
  unfold work_expire.
  set (s' := set_layers s (alter clear_work slot (layers s))).
  assert (Hcleared : forall ld,
            layers (fst (layer_disable_work_handler slot s')) !! slot = Some ld ->
            disable_work ld = None).
  { intros ld. rewrite layer_disable_work_handler_spec.
    assert (Hs' : forall ld0, layers s' !! slot = Some ld0 ->
                          disable_work ld0 = None).
    { intros ld0. unfold s', set_layers; cbn [layers].
      rewrite list_lookup_alter_eq.
      destruct (layers s !! slot); cbn; [|discriminate].
      intros [= <-]. reflexivity. }
    destruct (layers s' !! slot) as [ld0|] eqn:Hl;
      [|cbn [fst]; rewrite Hl; discriminate].
    destruct (bool_decide (slot < MAX_LAYERS)%nat && active ld0); cbn [fst].
    - unfold set_layers; cbn [layers].
      rewrite list_lookup_insert_eq by (eapply lookup_lt_Some; eassumption).
      intros [= <-]. cbn. apply (Hs' ld0 eq_refl).
    - rewrite Hl. intros [= <-]. apply (Hs' ld0 eq_refl). }
  rewrite (alter_clear_work_done _ slot Hcleared), set_layers_same.
  apply Htwice.
Qed.

(** The timer of slot 1 fires twice in a state where the slot is active:
    the first run deactivates it, the second changes nothing. *)
Lemma layer_disable_work_handler_idempotent_witness :
  let r1 := layer_disable_work_handler 1 two_active in
  snd r1 = [zmk_keymap_layer_deactivate 1]
  /\ slot_active (fst r1) 1 = false
  /\ layer_disable_work_handler 1 (fst r1) = (fst r1, []).
Proof.
  cbv zeta. split; [reflexivity|]. split; [reflexivity|].
  apply (proj1 (layer_disable_work_handler_idempotent 1
                  (fst (layer_disable_work_handler 1 two_active)))).
  reflexivity.
Defined.

(** ** The key listener *)

Lemma position_excluded_In excluded pos :
  position_excluded excluded pos = true <-> In pos excluded.
Proof.
  induction excluded as [|p rest IH]; cbn [position_excluded In].
  - split; [discriminate | tauto].
  - destruct (Z.eqb_spec p pos) as [-> | Hne].
    + split; auto.
    + rewrite IH. split; [auto | intros [Heq | Hin]; [contradiction | auto]].
Qed.

(** C6: a key event whose position is in the excluded list has no effect:
    the state (last key press time, every slot's flag, accumulator and
    timer) is unchanged and no command is issued, whatever the pressed flag
    and whichever slots are active. *)
Theorem excluded_position_ignored cfg now ev s :
  In (position ev) (excluded_positions cfg) ->
  handle_position_state_changed cfg now ev s = (s, []).
Proof.
  intros Hin. unfold handle_position_state_changed.
  apply position_excluded_In in Hin. rewrite Hin. reflexivity.
Qed.

Lemma excluded_position_ignored_witness :
  let cfg := {| require_prior_idle_ms := 200; excluded_positions := [40; 41] |} in
  let ev := {| position := 41; state := true |} in
  let s := {| last_tap_time := 7;
              layers := <[2%nat := {| accumulated_distance := 110; active := true;
                                  disable_work := Some 500 |}]>
                          (layers threshold_temp_layer_init);
              pending_dx := 0; pending_dy := 0 |} in
  In (position ev) (excluded_positions cfg) /\
  handle_position_state_changed cfg 1000 ev s = (s, []).
Proof.
  cbv zeta. split; [cbn; auto|].
  apply excluded_position_ignored. cbn. auto.
Defined.

Lemma active_slots_insert_before ls i n k ld :
  (k < i)%nat -> active_slots (<[k := ld]> ls) i n = active_slots ls i n.
Proof.
  intros Hk. unfold active_slots. apply List.filter_ext_in.
  intros j Hj. apply in_seq in Hj. unfold active_at.
  rewrite list_lookup_insert_ne by lia. reflexivity.
Qed.

Lemma deactivate_loop_spec n i ls :
  (forall j,
      fst (deactivate_loop n i ls) !! j =
      if bool_decide (i <= j < i + n)%nat
      then reset_if_active <$> ls !! j else ls !! j)
  /\ snd (deactivate_loop n i ls)
     = map zmk_keymap_layer_deactivate (active_slots ls i n).
Proof.
  revert i ls. induction n as [|n IH]; intros i ls; cbn [deactivate_loop].
  - split; [|reflexivity]. intros j.
    rewrite bool_decide_eq_false_2 by lia. reflexivity.
  - unfold active_slots. cbn [seq List.filter]. unfold active_at at 1.
    fold (active_slots ls (S i) n).
    destruct (ls !! i) as [ld|] eqn:Hl.
    + destruct (active ld) eqn:Ha.
      * destruct (IH (S i) (<[i := deactivated None]> ls)) as [IHl IHo].
        destruct (deactivate_loop n (S i) (<[i := deactivated None]> ls))
          as [ls' out]. cbn [fst snd] in *. split.
        -- intros j. rewrite IHl.
           destruct (decide (j = i)) as [-> | Hne].
           ++ rewrite bool_decide_eq_false_2, bool_decide_eq_true_2 by lia.
              rewrite list_lookup_insert_eq
                by (eapply lookup_lt_Some; eassumption).
              rewrite Hl. cbn. unfold reset_if_active. rewrite Ha.
              reflexivity.
           ++ rewrite list_lookup_insert_ne by congruence.
              rewrite (bool_decide_ext (S i <= j < S i + n)%nat
                                       (i <= j < i + S n)%nat) by lia.
              reflexivity.
        -- rewrite IHo, active_slots_insert_before by lia. reflexivity.
      * destruct (IH (S i) ls) as [IHl IHo]. split; [|exact IHo].
        intros j. rewrite IHl.
        destruct (decide (j = i)) as [-> | Hne].
        -- rewrite bool_decide_eq_false_2, bool_decide_eq_true_2 by lia.
           rewrite Hl. cbn. unfold reset_if_active. rewrite Ha. reflexivity.
        -- rewrite (bool_decide_ext (S i <= j < S i + n)%nat
                                    (i <= j < i + S n)%nat) by lia.
           reflexivity.
    + destruct (IH (S i) ls) as [IHl IHo]. split; [|exact IHo].
      intros j. rewrite IHl.
      destruct (decide (j = i)) as [-> | Hne].
      * rewrite bool_decide_eq_false_2, bool_decide_eq_true_2 by lia.
        rewrite Hl. reflexivity.
      * rewrite (bool_decide_ext (S i <= j < S i + n)%nat
                                 (i <= j < i + S n)%nat) by lia.
        reflexivity.
Qed.

Lemma deactivate_loop_all ls :
  length ls = MAX_LAYERS ->
  deactivate_loop MAX_LAYERS 0 ls
  = (map reset_if_active ls,
     map zmk_keymap_layer_deactivate (active_slots ls 0 MAX_LAYERS)).
Proof.
  intros Hlen. destruct (deactivate_loop_spec MAX_LAYERS 0 ls) as [Hl Ho].
  destruct (deactivate_loop MAX_LAYERS 0 ls) as [ls' out].
  cbn [fst snd] in *. f_equal; [|exact Ho].
  apply list_eq. intros j. rewrite Hl, list_lookup_fmap.
  case_bool_decide as Hj; [reflexivity|].
  rewrite (lookup_ge_None_2 ls j) by lia. reflexivity.
Qed.

Lemma active_slots_In ls slot n :
  In slot (active_slots ls 0 n) <-> (slot < n)%nat /\ active_at ls slot = true.
Proof.
  unfold active_slots. rewrite List.filter_In, in_seq. intuition lia.
Qed.

(** C3: a press of a position that is not excluded stores the current time
    as last key press time and, in every slot that is active, whichever
    layer it controls, cancels the timer, clears the active flag, zeroes the
    accumulator and issues deactivate for that slot's layer (inactive slots
    are left alone); a release changes nothing and issues nothing. *)
Theorem key_press_resets_active_slots cfg now ev s :
  (length (layers s) = MAX_LAYERS ->
   ~ In (position ev) (excluded_positions cfg) ->
   state ev = true ->
   let s' := fst (handle_position_state_changed cfg now ev s) in
   let out := snd (handle_position_state_changed cfg now ev s) in
   last_tap_time s' = now
   /\ pending_dx s' = pending_dx s /\ pending_dy s' = pending_dy s
   /\ layers s' = map reset_if_active (layers s)
   /\ out = map zmk_keymap_layer_deactivate
                (active_slots (layers s) 0 MAX_LAYERS)
   /\ (forall slot ld,
         layers s !! slot = Some ld -> active ld = true ->
         layers s' !! slot
         = Some {| accumulated_distance := 0; active := false;
                   disable_work := None |}
         /\ In (zmk_keymap_layer_deactivate slot) out)
   /\ (forall slot ld,
         layers s !! slot = Some ld -> active ld = false ->
         layers s' !! slot = Some ld
         /\ ~ In (zmk_keymap_layer_deactivate slot) out))
  /\ (state ev = false ->
      handle_position_state_changed cfg now ev s = (s, [])).
Proof.
  split.
  - intros Hlen Hnot Hpress. unfold handle_position_state_changed.
    destruct (position_excluded (excluded_positions cfg) (position ev)) eqn:Hex.
    { apply position_excluded_In in Hex. contradiction. }
    rewrite Hpress, (deactivate_loop_all _ Hlen). cbn [fst snd].
    cbn [last_tap_time layers pending_dx pending_dy].
    repeat split; try reflexivity.
    + rewrite list_lookup_fmap, H. cbn. unfold reset_if_active.
      rewrite H0. reflexivity.
    + apply in_map, active_slots_In. split.
      * rewrite <- Hlen. eapply lookup_lt_Some; eassumption.
      * unfold active_at. rewrite H. assumption.
    + rewrite list_lookup_fmap, H. cbn. unfold reset_if_active.
      rewrite H0. reflexivity.
    + intros Hin. apply in_map_iff in Hin as (j & Heq & Hj).
      injection Heq as ->. apply active_slots_In in Hj as [_ Hj].
      unfold active_at in Hj. rewrite H in Hj. congruence.
  - intros Hrel. unfold handle_position_state_changed. rewrite Hrel.
    destruct (position_excluded _ _); reflexivity.
Qed.

Lemma key_press_resets_active_slots_witness :
  let cfg := {| require_prior_idle_ms := 0; excluded_positions := [40; 41] |} in
  let ev := {| position := 5; state := true |} in
  handle_position_state_changed cfg 1000 ev two_active
  = ({| last_tap_time := 1000;
        layers := <[4%nat := {| accumulated_distance := 12; active := false;
                                disable_work := None |}]>
                    (layers threshold_temp_layer_init);
        pending_dx := 0; pending_dy := 0 |},
     [zmk_keymap_layer_deactivate 1; zmk_keymap_layer_deactivate 6]).
Proof.
  cbv zeta.
  pose proof (proj1 (key_press_resets_active_slots
    {| require_prior_idle_ms := 0; excluded_positions := [40; 41] |}
    1000 {| position := 5; state := true |} two_active)
    ltac:(reflexivity)
    ltac:(cbn; intros [H | [H | []]]; discriminate)
    ltac:(reflexivity)) as (Ht & Hx & Hy & Hl & Ho & _).
  destruct (handle_position_state_changed _ 1000 _ two_active) as [s' out].
  cbn [fst snd] in *. destruct s'. cbn in Ht, Hx, Hy, Hl, Ho. subst.
  reflexivity.
Defined.

(** ** The event handler, one call *)

Lemma handle_event_unfold cfg now event param1 param2 param3 s :
  threshold_temp_layer_handle_event cfg now event param1 param2 param3 s =
  if uint8_of param1 >=? Z.of_nat MAX_LAYERS then (s, [])
  else
    match layers s !! slot_of param1 with
    | None => (s, [])
    | Some ld =>
        if gate_closed cfg s now ld then (s, [])
        else if is_motion event then
          let r := accumulate (slot_of param1) (int32_of param3)
                     (calculate_distance (buffered_dx s event)
                                         (buffered_dy s event)) ld in
          ({| last_tap_time := last_tap_time s;
              layers := <[slot_of param1 := rearm (int16_of param2) (fst r)]>
                          (layers s);
              pending_dx := 0;
              pending_dy := 0 |}, snd r)
        else (s, [])
    end.
Proof.
  unfold threshold_temp_layer_handle_event, slot_of, gate_closed, is_motion,
    buffered_dx, buffered_dy.
  destruct (uint8_of param1 >=? Z.of_nat MAX_LAYERS); [reflexivity|].
  destruct (layers s !! Z.to_nat (uint8_of param1)) as [ld|]; [|reflexivity].
  cbv zeta.
  destruct (accumulate _ _ _ ld) as [ld1 out]. reflexivity.
Qed.

Lemma slot_of_lt param1 :
  uint8_of param1 < Z.of_nat MAX_LAYERS <-> (slot_of param1 < MAX_LAYERS)%nat.
Proof.
  unfold slot_of, uint8_of.
  pose proof (Z.mod_pos_bound param1 (2 ^ 8) ltac:(lia)). lia.
Qed.

(** C4: a call whose layer parameter names no slot is to be a no-op, and
    the guard [layer >= MAX_LAYERS] is there to drop it; but the parameter
    is narrowed to [uint8_t] before the guard, which the parameter 256
    therefore passes as slot 0: the call accumulates, activates layer 0 and
    arms its timer. *)
Lemma layer_parameter_truncated :
  let cfg := {| require_prior_idle_ms := 0; excluded_positions := [] |} in
  let r := threshold_temp_layer_handle_event cfg 0 (rel_x 5) 256 500 0
             threshold_temp_layer_init in
  Z.of_nat MAX_LAYERS <= 256
  /\ r <> (threshold_temp_layer_init, [])
  /\ snd r = [zmk_keymap_layer_activate 0]
  /\ layers (fst r) !! 0%nat
     = Some {| accumulated_distance := 5; active := true;
               disable_work := Some 500 |}.
Proof.
  cbv zeta. split; [vm_compute; discriminate|].
  split; [vm_compute; discriminate|]. split; vm_compute; reflexivity.
Qed.

(** What the guard does drop: a call whose layer parameter has low 8 bits
    of 16 or more changes no state and issues no command; this covers every
    parameter from 16 to 255. *)
Theorem invalid_layer_dropped cfg now event param1 param2 param3 s :
  Z.of_nat MAX_LAYERS <= uint8_of param1 ->
  threshold_temp_layer_handle_event cfg now event param1 param2 param3 s
  = (s, []).
Proof.
  intros Hbig. unfold threshold_temp_layer_handle_event.
  destruct (Z.geb_spec (uint8_of param1) (Z.of_nat MAX_LAYERS)) as [_ | Hlt];
    [reflexivity | lia].
Qed.

Lemma invalid_layer_dropped_witness :
  let cfg := {| require_prior_idle_ms := 0; excluded_positions := [] |} in
  Z.of_nat MAX_LAYERS <= uint8_of 16 /\
  threshold_temp_layer_handle_event cfg 0 (rel_x 5) 16 500 0 two_active
  = (two_active, []).
Proof.
  cbv zeta. split; [vm_compute; discriminate|].
  apply invalid_layer_dropped. vm_compute. discriminate.
Defined.

Lemma gate_closed_without cfg s now ld :
  gate_closed (without_idle_gate cfg) s now ld = false.
Proof.
  unfold gate_closed, without_idle_gate; cbn [require_prior_idle_ms].
  change (0 >? 0) with false. rewrite andb_false_r. reflexivity.
Qed.

Lemma handle_event_gate_independent cfg now event param1 param2 param3 s ld :
  layers s !! slot_of param1 = Some ld ->
  gate_closed cfg s now ld = false ->
  threshold_temp_layer_handle_event cfg now event param1 param2 param3 s
  = threshold_temp_layer_handle_event (without_idle_gate cfg) now event
      param1 param2 param3 s.
Proof.
  intros Hl Hg. rewrite !handle_event_unfold, Hl, Hg, gate_closed_without.
  reflexivity.
Qed.

(** C5: with an idle requirement R > 0 and the slot inactive, a sample that
    arrives less than R after the last key press changes nothing (no
    accumulation, no activation); one that arrives R or more after it is
    handled as without the requirement: the distance is added and the slot
    activates when the sum reaches the threshold.  A sample for a slot that
    is already active is never gated, and refreshes the timer when the
    timeout is positive.  The two times are values of the kernel's uptime
    clock, a non-negative [int64_t]. *)
Theorem idle_gate_correct cfg now event param1 param2 param3 s ld :
  (slot_of param1 < MAX_LAYERS)%nat ->
  layers s !! slot_of param1 = Some ld ->
  0 <= last_tap_time s < 2 ^ 63 ->
  0 <= now < 2 ^ 63 ->
  let run := fun c =>
    threshold_temp_layer_handle_event c now event param1 param2 param3 s in
  let slot := slot_of param1 in
  let acc := int32_of (accumulated_distance ld
                       + calculate_distance (buffered_dx s event)
                                            (buffered_dy s event)) in
  let after_call l :=
    {| last_tap_time := last_tap_time s; layers := <[slot := l]> (layers s);
       pending_dx := 0; pending_dy := 0 |} in
  (active ld = false -> 0 < require_prior_idle_ms cfg ->
   now - last_tap_time s < require_prior_idle_ms cfg ->
   run cfg = (s, []))
  /\ (active ld = false -> 0 < require_prior_idle_ms cfg ->
      require_prior_idle_ms cfg <= now - last_tap_time s ->
      run cfg = run (without_idle_gate cfg))
  /\ (active ld = true -> run cfg = run (without_idle_gate cfg))
  /\ (active ld = false -> is_motion event = true ->
      run (without_idle_gate cfg)
      = (after_call
           (rearm (int16_of param2)
              {| accumulated_distance := acc;
                 active := acc >=? int32_of param3;
                 disable_work := disable_work ld |}),
         if acc >=? int32_of param3
         then [zmk_keymap_layer_activate slot] else []))
  /\ (active ld = true -> is_motion event = true ->
      0 < int16_of param2 ->
      run (without_idle_gate cfg)
      = (after_call
           {| accumulated_distance := accumulated_distance ld;
              active := true;
              disable_work := Some (int16_of param2) |}, [])).
Proof.
  intros Hslot Hl Hlast Hnow. cbv zeta.
  assert (Ht : - 2 ^ 63 <= now - last_tap_time s < 2 ^ 63) by lia.
  assert (Hlt : (uint8_of param1 >=? Z.of_nat MAX_LAYERS) = false).
  { apply slot_of_lt in Hslot.
    destruct (Z.geb_spec (uint8_of param1) (Z.of_nat MAX_LAYERS)); [lia|done]. }
  split; [|split; [|split; [|split]]].
  - intros Ha HR Hearly. rewrite handle_event_unfold, Hlt, Hl.
    unfold gate_closed. rewrite Ha, (int64_of_small _ Ht). cbn [negb andb].
    destruct (Z.gtb_spec (require_prior_idle_ms cfg) 0); [|lia].
    destruct (Z.ltb_spec (now - last_tap_time s) (require_prior_idle_ms cfg));
      [reflexivity | lia].
  - intros Ha HR Hlate. apply (handle_event_gate_independent _ _ _ _ _ _ _ ld Hl).
    unfold gate_closed. rewrite (int64_of_small _ Ht).
    destruct (Z.ltb_spec (now - last_tap_time s) (require_prior_idle_ms cfg));
      [lia | apply andb_false_r].
  - intros Ha. apply (handle_event_gate_independent _ _ _ _ _ _ _ ld Hl).
    unfold gate_closed. rewrite Ha. reflexivity.
  - intros Ha Hm.
    rewrite handle_event_unfold, Hlt, Hl, gate_closed_without, Hm.
    cbv zeta. unfold accumulate. rewrite Ha.
    destruct (_ >=? int32_of param3); reflexivity.
  - intros Ha Hm Hpos.
    rewrite handle_event_unfold, Hlt, Hl, gate_closed_without, Hm.
    cbv zeta. unfold accumulate. rewrite Ha. cbn [fst snd].
    unfold rearm. rewrite Ha.
    destruct (Z.gtb_spec (int16_of param2) 0); [reflexivity | lia].
Qed.

(** The example of the specification: 200 ms of idle time required, last
    key press at 1000.  A sample at 1150 is dropped. *)
Lemma idle_gate_correct_witness :
  let cfg := {| require_prior_idle_ms := 200; excluded_positions := [] |} in
  let s := {| last_tap_time := 1000;
              layers := layers threshold_temp_layer_init;
              pending_dx := 0; pending_dy := 0 |} in
  threshold_temp_layer_handle_event cfg 1150 (rel_x 60) 1 500 100 s = (s, []).
Proof.
  cbv zeta.
  refine (proj1 (idle_gate_correct
    {| require_prior_idle_ms := 200; excluded_positions := [] |}
    1150 (rel_x 60) 1 500 100 _ (deactivated None) _ _ _ _) _ _ _).
  - vm_compute. lia.
  - reflexivity.
  - vm_compute. split; [discriminate | reflexivity].
  - vm_compute. split; [discriminate | reflexivity].
  - reflexivity.
  - reflexivity.
  - reflexivity.
Defined.

(** The same sample at 1200 is accumulated, and one of 100 activates. *)
Example idle_gate_open_at_200 :
  let cfg := {| require_prior_idle_ms := 200; excluded_positions := [] |} in
  let s := {| last_tap_time := 1000;
              layers := layers threshold_temp_layer_init;
              pending_dx := 0; pending_dy := 0 |} in
  slot_distance
    (fst (threshold_temp_layer_handle_event cfg 1200 (rel_x 60) 1 500 100 s))
    1 = 60
  /\ snd (threshold_temp_layer_handle_event cfg 1200 (rel_y (-100)) 1 500 100 s)
     = [zmk_keymap_layer_activate 1].
Proof. split; vm_compute; reflexivity. Qed.

(** ** One operation, seen from one slot *)

Lemma run_operation_length cfg op s :
  length (layers (fst (run_operation cfg op s))) = length (layers s).
Proof.
  destruct op as [now event p1 p2 p3 | now ev | slot]; cbn [run_operation].
  - rewrite handle_event_unfold.
    destruct (uint8_of p1 >=? Z.of_nat MAX_LAYERS); [reflexivity|].
    destruct (layers s !! slot_of p1) as [ld|]; [|reflexivity].
    destruct (gate_closed cfg s now ld); [reflexivity|].
    destruct (is_motion event); [|reflexivity].
    cbn [fst layers]. apply length_insert.
  - unfold handle_position_state_changed.
    destruct (position_excluded _ _); [reflexivity|].
    destruct (state ev); [|reflexivity].
    pose proof (deactivate_loop_spec MAX_LAYERS 0 (layers s)) as [Hl _].
    destruct (deactivate_loop MAX_LAYERS 0 (layers s)) as [ls out].
    cbn [fst layers] in *.
    destruct (Nat.lt_trichotomy (length ls) (length (layers s)))
      as [Hlt | [Heq | Hgt]]; [exfalso | exact Heq | exfalso].
    + pose proof (Hl (length ls)) as Hk.
      rewrite (lookup_ge_None_2 ls) in Hk by lia.
      destruct (lookup_lt_is_Some_2 (layers s) (length ls) Hlt) as [x Hx].
      rewrite Hx in Hk. destruct (bool_decide _); discriminate.
    + pose proof (Hl (length (layers s))) as Hk.
      rewrite (lookup_ge_None_2 (layers s)) in Hk by lia.
      destruct (lookup_lt_is_Some_2 ls (length (layers s)) Hgt) as [x Hx].
      rewrite Hx in Hk. destruct (bool_decide _); discriminate.
  - unfold work_expire. rewrite layer_disable_work_handler_spec.
    unfold set_layers at 1; cbn [layers].
    destruct (alter clear_work slot (layers s) !! slot) as [ld|];
      [destruct (_ && _)|]; cbn [fst set_layers layers];
      rewrite ?length_insert, length_alter; reflexivity.
Qed.

Lemma run_operation_slot cfg op s j ld :
  length (layers s) = MAX_LAYERS ->
  layers s !! j = Some ld ->
  layers (fst (run_operation cfg op s)) !! j
  = Some (slot_after cfg op s j ld).
Proof.
  intros Hlen Hj.
  assert (Hjlt : (j < MAX_LAYERS)%nat)
    by (rewrite <- Hlen; eapply lookup_lt_Some; eassumption).
  destruct op as [now event p1 p2 p3 | now ev | slot];
    cbn [run_operation slot_after].
  - rewrite handle_event_unfold.
    destruct (Z.geb_spec (uint8_of p1) (Z.of_nat MAX_LAYERS)) as [Hge | Hlt].
    { cbn [fst]. rewrite Hj. case_bool_decide as Heq; [|reflexivity].
      subst j. unfold slot_of in Hjlt. lia. }
    case_bool_decide as Heq.
    + subst j. rewrite Hj. cbn [andb].
      destruct (gate_closed cfg s now ld); [cbn; exact Hj|].
      destruct (is_motion event); [|cbn; exact Hj].
      cbn [fst layers negb andb].
      apply list_lookup_insert_eq. lia.
    + cbn [andb].
      destruct (layers s !! slot_of p1) as [ld1|]; [|exact Hj].
      destruct (gate_closed cfg s now ld1); [exact Hj|].
      destruct (is_motion event); [|exact Hj].
      cbn [fst layers]. rewrite list_lookup_insert_ne by done. exact Hj.
  - unfold handle_position_state_changed.
    destruct (position_excluded _ _); [exact Hj|].
    destruct (state ev); [|exact Hj].
    rewrite (deactivate_loop_all _ Hlen). cbn [fst layers negb andb].
    rewrite list_lookup_fmap, Hj. reflexivity.
  - unfold work_expire. rewrite layer_disable_work_handler_spec.
    unfold set_layers at 1; cbn [layers].
    destruct (decide (slot = j)) as [-> | Hne].
    + rewrite (bool_decide_eq_true_2 (j = j)) by done.
      rewrite list_lookup_alter_eq, Hj. cbn [fmap option_fmap option_map].
      rewrite bool_decide_eq_true_2 by lia. cbn [andb clear_work active].
      destruct (active ld); cbn [fst set_layers layers].
      * rewrite list_lookup_insert_eq by (rewrite length_alter; lia).
        reflexivity.
      * rewrite list_lookup_alter_eq, Hj. reflexivity.
    + rewrite (bool_decide_eq_false_2 (slot = j)) by done.
      destruct (alter clear_work slot (layers s) !! slot) as [ld1|];
        [destruct (_ && _)|]; cbn [fst set_layers layers];
        rewrite ?list_lookup_insert_ne by done;
        rewrite list_lookup_alter_ne by done; exact Hj.
Qed.

Lemma run_operation_pending cfg op s :
  pending_dx s = 0 -> pending_dy s = 0 ->
  pending_dx (fst (run_operation cfg op s)) = 0
  /\ pending_dy (fst (run_operation cfg op s)) = 0.
Proof.
  intros Hx Hy.
  destruct op as [now event p1 p2 p3 | now ev | slot]; cbn [run_operation].
  - rewrite handle_event_unfold.
    destruct (uint8_of p1 >=? Z.of_nat MAX_LAYERS); [done|].
    destruct (layers s !! slot_of p1) as [ld|]; [|done].
    destruct (gate_closed cfg s now ld); [done|].
    destruct (is_motion event); done.
  - unfold handle_position_state_changed.
    destruct (position_excluded _ _); [done|].
    destruct (state ev); [|done].
    destruct (deactivate_loop _ _ _). done.
  - unfold work_expire, layer_disable_work_handler.
    destruct (disable_loop _ _ _ _). done.
Qed.

Lemma reachable_well_formed cfg allowed s :
  reachable cfg allowed s -> well_formed s.
Proof.
  induction 1 as [|s op Hr [Hlen [Hx Hy]] Hop].
  - repeat split.
  - split; [rewrite run_operation_length; exact Hlen|].
    apply run_operation_pending; assumption.
Qed.

(** ** The auto-deactivation timer *)

Section Bindings.

Variable cfg : threshold_temp_layer_config.
Variable timeout_ms : nat -> Z.

Lemma timer_matches_step op s j ld :
  uses_binding timeout_ms op -> timer_matches timeout_ms j ld ->
  timer_matches timeout_ms j (slot_after cfg op s j ld).
Proof.
  unfold timer_matches. intros Hop Hinv.
  destruct op as [now event p1 p2 p3 | now ev | slot]; cbn [slot_after].
  - cbn [uses_binding] in Hop.
    destruct (bool_decide (slot_of p1 = j)) eqn:Hb; cbn [andb];
      [|exact Hinv].
    apply bool_decide_eq_true_1 in Hb. subst j.
    destruct (gate_closed cfg s now ld); cbn [negb andb]; [exact Hinv|].
    destruct (is_motion event); [|exact Hinv].
    rewrite Hop. unfold accumulate, rearm.
    destruct (active ld) eqn:Ha; cbn [fst active].
    + rewrite Ha. cbn [andb].
      destruct (Z.gtb_spec (timeout_ms (slot_of p1)) 0) as [Hpos | Hle];
        cbn [active disable_work].
      * split; [intros _; split; [done | lia] | intros _; by eexists].
      * rewrite Ha. exact Hinv.
    + destruct (_ >=? int32_of p3); cbn [fst active andb].
      * destruct (Z.gtb_spec (timeout_ms (slot_of p1)) 0) as [Hpos | Hle];
          cbn [active disable_work].
        -- split; [intros _; split; [done | lia] | intros _; by eexists].
        -- split; [|intros [_ Hpos]; lia].
           intros Hsome. apply Hinv in Hsome as [Habs _]. discriminate.
      * cbn [active disable_work].
        split; [|intros [Habs _]; discriminate].
        intros Hsome. apply Hinv in Hsome as [Habs _]. discriminate.
  - destruct (negb _ && state ev); [|exact Hinv].
    unfold reset_if_active. destruct (active ld) eqn:Ha.
    + cbn [deactivated active disable_work].
      split; [intros [x Hx]; discriminate | intros [Habs _]; discriminate].
    + rewrite Ha. exact Hinv.
  - destruct (bool_decide (slot = j)); [|exact Hinv].
    destruct (active ld) eqn:Ha; cbn [deactivated clear_work active disable_work].
    + split; [intros [x Hx]; discriminate | intros [Habs _]; discriminate].
    + rewrite Ha.
      split; [intros [x Hx]; discriminate | intros [Habs _]; discriminate].
Qed.

(** C9: in every state reachable from initialisation by motion samples,
    key events and timer fires, the array has its 16 slots and each slot
    has a pending auto-deactivation timer if and only if it is active and
    its configured timeout is strictly positive. *)
Theorem pending_timer_iff_active s :
  reachable cfg (uses_binding timeout_ms) s ->
  length (layers s) = MAX_LAYERS
  /\ forall slot ld,
       layers s !! slot = Some ld ->
       (is_Some (disable_work ld)
        <-> active ld = true /\ 0 < timeout_ms slot).
Proof.
  induction 1 as [|s op Hr [Hlen IH] Hop].
  - split; [reflexivity|]. intros slot ld Hl.
    apply lookup_replicate in Hl as [-> _]. cbn.
    split; [intros [x Hx]; discriminate | intros [Habs _]; discriminate].
  - split; [rewrite run_operation_length; exact Hlen|].
    intros slot ld' Hl'.
    destruct (lookup_lt_is_Some_2 (layers s) slot) as [ld Hl].
    { rewrite <- (run_operation_length cfg op s).
      eapply lookup_lt_Some; eassumption. }
    rewrite (run_operation_slot cfg op s slot ld Hlen Hl) in Hl'.
    injection Hl' as <-.
    apply timer_matches_step; [exact Hop | exact (IH slot ld Hl)].
Qed.

End Bindings.

Lemma reachable_run cfg (allowed : operation -> Prop) ops s :
  reachable cfg allowed s -> Forall allowed ops ->
  reachable cfg allowed (fst (run_operations cfg ops s)).
Proof.
  intros Hr Hall. revert s Hr.
  induction Hall as [|op rest Hop Hrest IH]; intros s Hr; [exact Hr|].
  cbn [run_operations].
  pose proof (reachable_step cfg allowed s op Hr Hop) as Hstep.
  destruct (run_operation cfg op s) as [s1 out1]. cbn [fst] in Hstep.
  specialize (IH s1 Hstep).
  destruct (run_operations cfg rest s1) as [s2 out2]. exact IH.
Qed.

Lemma pending_timer_iff_active_witness :
  let cfg := {| require_prior_idle_ms := 0; excluded_positions := [] |} in
  let s := fst (run_operations cfg sample_run threshold_temp_layer_init) in
  layers s !! 1%nat
  = Some {| accumulated_distance := 140; active := true;
            disable_work := Some 500 |}
  /\ (is_Some (Some 500) <-> true = true /\ 0 < 500).
Proof.
  cbv zeta. split; [vm_compute; reflexivity|].
  refine (proj2 (pending_timer_iff_active
    {| require_prior_idle_ms := 0; excluded_positions := [] |}
    (fun _ => 500)
    (fst (run_operations _ sample_run threshold_temp_layer_init)) _)
    1%nat {| accumulated_distance := 140; active := true;
             disable_work := Some 500 |} _).
  - apply reachable_run; [apply reachable_init|].
    repeat constructor.
  - vm_compute. reflexivity.
Defined.

(** ** Runs of motion samples on one slot *)

Lemma gate_closed_open cfg s now ld :
  gate_closed cfg s now ld
  = negb (active ld) && negb (idle_gate_open cfg (last_tap_time s) now).
Proof.
  unfold gate_closed, idle_gate_open.
  rewrite negb_involutive, andb_assoc. reflexivity.
Qed.

Lemma sample_magnitude_abs event :
  Z.abs (value event) <= INT_MAX ->
  sample_magnitude event = Z.abs (value event).
Proof.
  intros Hv. unfold sample_magnitude.
  destruct (calculate_distance_axis _ Hv) as [Hx Hy].
  destruct (code event =? INPUT_REL_X); assumption.
Qed.

Lemma buffered_distance s event :
  pending_dx s = 0 -> pending_dy s = 0 -> is_motion event = true ->
  calculate_distance (buffered_dx s event) (buffered_dy s event)
  = sample_magnitude event.
Proof.
  intros Hx Hy Hm. unfold buffered_dx, buffered_dy, sample_magnitude.
  rewrite Hx, Hy. unfold is_motion in Hm.
  destruct (code event =? INPUT_REL_X); [reflexivity|].
  destruct (code event =? INPUT_REL_Y); [reflexivity|].
  rewrite andb_false_r in Hm. discriminate.
Qed.

Lemma running_sum_cons a sample rest :
  running_sum a (sample :: rest)
  = running_sum (a + sample_magnitude (snd sample)) rest.
Proof. destruct sample as [now event]. reflexivity. Qed.

Lemma running_sum_mono cfg last a samples :
  Forall (accepted cfg last) samples -> a <= running_sum a samples.
Proof.
  intros Hall. revert a.
  induction Hall as [|sample rest (_ & _ & Hv) _ IH]; intros a; [cbn; lia|].
  rewrite running_sum_cons. specialize (IH (a + sample_magnitude (snd sample))).
  rewrite (sample_magnitude_abs _ Hv) in *. lia.
Qed.

(** One accepted sample on an inactive slot. *)
Lemma handle_event_accepted cfg now event param1 param2 param3 s ld :
  well_formed s ->
  (slot_of param1 < MAX_LAYERS)%nat ->
  layers s !! slot_of param1 = Some ld ->
  active ld = false ->
  accepted cfg (last_tap_time s) (now, event) ->
  INT_MIN <= accumulated_distance ld ->
  accumulated_distance ld + sample_magnitude event <= INT_MAX ->
  let acc := accumulated_distance ld + sample_magnitude event in
  let crosses := acc >=? int32_of param3 in
  threshold_temp_layer_handle_event cfg now event param1 param2 param3 s
  = ({| last_tap_time := last_tap_time s;
        layers := <[slot_of param1 :=
                      rearm (int16_of param2)
                        {| accumulated_distance := acc; active := crosses;
                           disable_work := disable_work ld |}]> (layers s);
        pending_dx := 0; pending_dy := 0 |},
     if crosses then [zmk_keymap_layer_activate (slot_of param1)] else []).
Proof.
  intros (Hlen & Hx & Hy) Hslot Hl Ha (Hm & Hg & Hv) Hlo Hhi. cbn [fst snd] in *.
  rewrite handle_event_unfold, Hl, gate_closed_open, Ha, Hg, Hm.
  apply slot_of_lt in Hslot.
  destruct (Z.geb_spec (uint8_of param1) (Z.of_nat MAX_LAYERS)); [lia|].
  cbn [negb andb]. cbv zeta. rewrite (buffered_distance s event Hx Hy Hm).
  unfold accumulate. rewrite Ha.
  rewrite int32_of_small
    by (rewrite (sample_magnitude_abs _ Hv) in *; lia).
  destruct (_ >=? int32_of param3); reflexivity.
Qed.

Lemma feed_cons cfg param1 param2 param3 now event rest s :
  feed cfg param1 param2 param3 ((now, event) :: rest) s
  = let r1 := threshold_temp_layer_handle_event cfg now event
                param1 param2 param3 s in
    let r2 := feed cfg param1 param2 param3 rest (fst r1) in
    (fst r2, snd r1 ++ snd r2).
Proof.
  unfold feed. cbn [map run_operations run_operation].
  destruct (threshold_temp_layer_handle_event _ _ _ _ _ _ s) as [s1 out1].
  cbn [fst snd]. destruct (run_operations _ _ s1) as [s2 out2]. reflexivity.
Qed.

(** Once the slot is active, samples neither accumulate nor activate. *)
Lemma handle_event_active cfg now event param1 param2 param3 s ld :
  layers s !! slot_of param1 = Some ld -> active ld = true ->
  let r := threshold_temp_layer_handle_event cfg now event
             param1 param2 param3 s in
  snd r = []
  /\ exists ld1, layers (fst r) !! slot_of param1 = Some ld1
                 /\ active ld1 = true
                 /\ accumulated_distance ld1 = accumulated_distance ld.
Proof.
  intros Hl Ha. cbv zeta.
  rewrite handle_event_unfold, Hl, gate_closed_open, Ha. cbn [negb andb].
  destruct (uint8_of param1 >=? Z.of_nat MAX_LAYERS); [by eauto|].
  destruct (is_motion event); [|by eauto].
  cbv zeta. unfold accumulate. rewrite Ha. cbn [fst snd layers].
  split; [reflexivity|]. eexists. split.
  - apply list_lookup_insert_eq. eapply lookup_lt_Some; eassumption.
  - unfold rearm. destruct (_ && _); cbn; auto.
Qed.

Lemma feed_active cfg param1 param2 param3 samples s ld :
  layers s !! slot_of param1 = Some ld -> active ld = true ->
  let r := feed cfg param1 param2 param3 samples s in
  slot_active (fst r) (slot_of param1) = true
  /\ slot_distance (fst r) (slot_of param1) = accumulated_distance ld
  /\ snd r = [].
Proof.
  revert s ld. induction samples as [|[now event] rest IH]; intros s ld Hl Ha.
  - cbn. unfold slot_active, slot_distance. rewrite Hl. auto.
  - cbv zeta. rewrite feed_cons. cbv zeta. cbn [fst snd].
    destruct (handle_event_active cfg now event param1 param2 param3 s ld
                Hl Ha) as (Hout & ld1 & Hl1 & Ha1 & Hacc).
    rewrite Hout, <- Hacc. exact (IH _ ld1 Hl1 Ha1).
Qed.

Lemma crossed_nil T a k : ~ crossed T a [] 0 /\ (crossed T a [] k -> T <= a).
Proof.
  split.
  - intros (j & Hj & _). lia.
  - intros (j & _ & Hsum). rewrite take_nil in Hsum. exact Hsum.
Qed.

Lemma crossed_cons T a sample rest n :
  crossed T a (sample :: rest) (S n)
  <-> T <= a + sample_magnitude (snd sample)
      \/ crossed T (a + sample_magnitude (snd sample)) rest n.
Proof.
  unfold crossed. split.
  - intros (j & Hj & Hsum). destruct j as [|j]; [lia|].
    rewrite firstn_cons, running_sum_cons in Hsum.
    destruct j as [|j].
    + left. rewrite take_0 in Hsum. exact Hsum.
    + right. exists (S j). split; [lia | exact Hsum].
  - intros [Hnow | (j & Hj & Hsum)].
    + exists 1%nat. split; [lia|].
      rewrite firstn_cons, take_0, running_sum_cons. exact Hnow.
    + exists (S j). split; [lia|].
      rewrite firstn_cons, running_sum_cons. exact Hsum.
Qed.

Lemma feed_inactive cfg param1 param2 param3 samples s ld :
  well_formed s ->
  (slot_of param1 < MAX_LAYERS)%nat ->
  layers s !! slot_of param1 = Some ld ->
  active ld = false ->
  Forall (accepted cfg (last_tap_time s)) samples ->
  INT_MIN <= accumulated_distance ld ->
  running_sum (accumulated_distance ld) samples <= INT_MAX ->
  let r := feed cfg param1 param2 param3 samples s in
  (slot_active (fst r) (slot_of param1) = true
   <-> crossed (int32_of param3) (accumulated_distance ld) samples
         (length samples))
  /\ (slot_active (fst r) (slot_of param1) = false ->
      slot_distance (fst r) (slot_of param1)
      = running_sum (accumulated_distance ld) samples)
  /\ snd r = if slot_active (fst r) (slot_of param1)
             then [zmk_keymap_layer_activate (slot_of param1)] else [].
Proof.
  intros Hwf Hslot Hl Ha Hall. revert s ld Hwf Hl Ha Hall.
  induction samples as [|[now event] rest IH];
    intros s ld Hwf Hl Ha Hall Hlo Hhi; cbv zeta.
  - cbn [feed map run_operations fst snd length].
    unfold feed; cbn [map run_operations fst snd].
    unfold slot_active, slot_distance. rewrite Hl, Ha.
    split; [|split; [reflexivity | reflexivity]].
    split; [discriminate|]. intros Hc. exfalso.
    exact (proj1 (crossed_nil _ _ 0%nat) Hc).
  - apply Forall_cons in Hall as [Hacc Hrest].
    rewrite running_sum_cons in Hhi. cbn [snd] in Hhi.
    pose proof (running_sum_mono cfg (last_tap_time s)
                  (accumulated_distance ld + sample_magnitude event)
                  rest Hrest) as Hmono.
    assert (Hmag : 0 <= sample_magnitude event).
    { destruct Hacc as (_ & _ & Hv). cbn [snd] in Hv.
      rewrite (sample_magnitude_abs _ Hv). lia. }
    rewrite feed_cons. cbv zeta.
    rewrite (handle_event_accepted cfg now event param1 param2 param3 s ld
               Hwf Hslot Hl Ha Hacc Hlo ltac:(lia)).
    cbn [fst snd length]. rewrite crossed_cons. cbn [snd].
    set (acc := accumulated_distance ld + sample_magnitude event) in *.
    destruct Hwf as (Hlen & Hx & Hy).
    destruct (Z.geb_spec acc (int32_of param3)) as [Hcross | Hbelow].
    + match goal with
      | |- context [feed _ _ _ _ rest ?s1] =>
          destruct (feed_active cfg param1 param2 param3 rest s1
                      (rearm (int16_of param2)
                         {| accumulated_distance := acc; active := true;
                            disable_work := disable_work ld |}))
            as (Hact & _ & Hout)
      end.
      { cbn [layers]. apply list_lookup_insert_eq. lia. }
      { unfold rearm. destruct (_ && _); reflexivity. }
      rewrite Hact, Hout. split; [|split; [discriminate | reflexivity]].
      split; [intros _; left; lia | reflexivity].
    + assert (Hsame : rearm (int16_of param2)
                {| accumulated_distance := acc; active := false;
                   disable_work := disable_work ld |}
              = {| accumulated_distance := acc; active := false;
                   disable_work := disable_work ld |}) by reflexivity.
      rewrite Hsame.
      match goal with
      | |- context [feed _ _ _ _ rest ?s1] =>
          destruct (IH s1 {| accumulated_distance := acc; active := false;
                             disable_work := disable_work ld |})
            as (Hiff & Hdist & Hout)
      end.
      * repeat split. cbn [layers]. rewrite length_insert. exact Hlen.
      * cbn [layers]. apply list_lookup_insert_eq. lia.
      * reflexivity.
      * exact Hrest.
      * cbn [accumulated_distance]. lia.
      * exact Hhi.
      * cbn [accumulated_distance] in *. rewrite Hout.
        split; [|split; [exact Hdist | reflexivity]].
        rewrite Hiff. split; [auto | intros [Habs | Hc]; [lia | exact Hc]].
Qed.

Lemma feed_app cfg param1 param2 param3 l1 l2 s :
  feed cfg param1 param2 param3 (l1 ++ l2) s
  = let r1 := feed cfg param1 param2 param3 l1 s in
    let r2 := feed cfg param1 param2 param3 l2 (fst r1) in
    (fst r2, snd r1 ++ snd r2).
Proof.
  revert s. induction l1 as [|[now event] rest IH]; intros s.
  - cbv zeta.
    change (feed cfg param1 param2 param3 [] s) with (s, @nil keymap_command).
    cbn [fst snd app].
    destruct (feed cfg param1 param2 param3 l2 s). reflexivity.
  - rewrite <- app_comm_cons, !feed_cons. cbv zeta. rewrite IH.
    cbn [fst snd]. rewrite app_assoc. reflexivity.
Qed.

Lemma crossed_S T a samples k :
  crossed T a samples (S k)
  <-> crossed T a samples k \/ T <= running_sum a (take (S k) samples).
Proof.
  unfold crossed. split.
  - intros (j & Hj & Hsum). destruct (decide (j = S k)) as [-> | Hne].
    + right. exact Hsum.
    + left. exists j. split; [lia | exact Hsum].
  - intros [(j & Hj & Hsum) | Hsum].
    + exists j. split; [lia | exact Hsum].
    + exists (S k). split; [lia | exact Hsum].
Qed.

Lemma running_sum_app a l1 l2 :
  running_sum a (l1 ++ l2) = running_sum (running_sum a l1) l2.
Proof. unfold running_sum. apply fold_left_app. Qed.

Lemma running_sum_take cfg last a samples k :
  Forall (accepted cfg last) samples ->
  running_sum a (take k samples) <= running_sum a samples.
Proof.
  intros Hall. rewrite <- (take_drop k samples) at 2.
  rewrite running_sum_app. apply (running_sum_mono cfg last).
  apply Forall_drop. exact Hall.
Qed.

Lemma crossed_take T a samples k :
  crossed T a (take k samples) k <-> crossed T a samples k.
Proof.
  unfold crossed. split; intros (j & Hj & Hsum); exists j; (split; [lia|]).
  - rewrite take_take, Nat.min_l in Hsum by lia. exact Hsum.
  - rewrite take_take, Nat.min_l by lia. exact Hsum.
Qed.


(** ** The accumulator *)

(** C8, as stated, fails: the accumulator is a 32-bit [int].  With
    threshold [INT_MAX], a sample of 2147483646 leaves the slot inactive
    with that sum; a further sample of 2 wraps the sum to [INT_MIN], so the
    accumulator of a slot that stays inactive decreases. *)
Lemma accumulator_wraps :
  let cfg := {| require_prior_idle_ms := 0; excluded_positions := [] |} in
  let s1 := fst (run_operation cfg
                   (motion_sample 10 (rel_x 2147483646) 1 500 2147483647)
                   threshold_temp_layer_init) in
  let s2 := fst (run_operation cfg
                   (motion_sample 20 (rel_x 2) 1 500 2147483647) s1) in
  reachable cfg (fun _ => True) s1
  /\ slot_active s1 1 = false /\ slot_distance s1 1 = 2147483646
  /\ slot_active s2 1 = false /\ slot_distance s2 1 = -2147483648
  /\ slot_distance s2 1 < slot_distance s1 1.
Proof.
  cbv zeta. split.
  - apply reachable_step; [apply reachable_init | exact I].
  - vm_compute. repeat split; congruence.
Qed.

(** C8 (amended): for every slot and every operation (motion sample, key
    event, timer fire): when the slot goes from active to inactive, by
    timeout or by key press, its accumulator is 0 afterwards; when it stays
    active the accumulator is unchanged; and when it was inactive the
    accumulator does not decrease, provided the sample's delta is not
    [INT_MIN] and the new sum fits the 32-bit accumulator. *)
Theorem accumulator_reset_on_deactivation cfg op s slot ld :
  well_formed s ->
  layers s !! slot = Some ld ->
  exists ld',
    layers (fst (run_operation cfg op s)) !! slot = Some ld'
    /\ (active ld = true -> active ld' = false ->
        accumulated_distance ld' = 0)
    /\ (active ld = true -> active ld' = true ->
        accumulated_distance ld' = accumulated_distance ld)
    /\ (active ld = false -> sample_fits op slot ld ->
        accumulated_distance ld <= accumulated_distance ld').
Proof.
  intros (Hlen & Hx & Hy) Hl.
  exists (slot_after cfg op s slot ld).
  split; [exact (run_operation_slot cfg op s slot ld Hlen Hl)|].
  destruct op as [now event p1 p2 p3 | now ev | fired];
    cbn [slot_after sample_fits].
  - destruct (decide (slot_of p1 = slot)) as [Hto | Hother];
      [rewrite (bool_decide_eq_true_2 _ Hto)
      |rewrite (bool_decide_eq_false_2 _ Hother)]; cbn [andb];
      [|repeat split; (congruence || lia)].
    destruct (gate_closed cfg s now ld); cbn [negb andb];
      [repeat split; (congruence || lia)|].
    destruct (is_motion event) eqn:Hm; [|repeat split; (congruence || lia)].
    rewrite (buffered_distance s event Hx Hy Hm).
    assert (Hrearm : forall l,
              active (rearm (int16_of p2) l) = active l
              /\ accumulated_distance (rearm (int16_of p2) l)
                 = accumulated_distance l).
    { intros l. unfold rearm.
      destruct (active l && (int16_of p2 >? 0)) eqn:E; [|split; reflexivity].
      cbn [active accumulated_distance]. split; reflexivity. }
    destruct (Hrearm (fst (accumulate slot (int32_of p3)
                             (sample_magnitude event) ld))) as [-> ->].
    unfold accumulate. destruct (active ld) eqn:Ha.
    + cbn [fst]. repeat split; (congruence || lia).
    + repeat split; try discriminate. intros _ Hfits.
      destruct (Hfits Hto) as (Hv & Hlo & Hhi).
      rewrite (sample_magnitude_abs _ Hv).
      rewrite int32_of_small by lia.
      destruct (_ >=? int32_of p3); cbn [fst accumulated_distance]; lia.
  - destruct (negb _ && state ev); [|repeat split; (congruence || lia)].
    unfold reset_if_active. destruct (active ld) eqn:Ha;
      cbn [deactivated active accumulated_distance];
      repeat split; (congruence || lia).
  - destruct (bool_decide (fired = slot)); [|repeat split; (congruence || lia)].
    destruct (active ld) eqn:Ha;
      cbn [deactivated clear_work active accumulated_distance];
      repeat split; (congruence || lia).
Qed.

Lemma accumulator_reset_on_deactivation_witness :
  let cfg := {| require_prior_idle_ms := 0; excluded_positions := [40] |} in
  let op := key_event 1000 {| position := 5; state := true |} in
  slot_distance two_active 1 = 110
  /\ slot_active two_active 1 = true
  /\ slot_active (fst (run_operation cfg op two_active)) 1 = false
  /\ slot_distance (fst (run_operation cfg op two_active)) 1 = 0.
Proof.
  cbv zeta.
  destruct (accumulator_reset_on_deactivation
    {| require_prior_idle_ms := 0; excluded_positions := [40] |}
    (key_event 1000 {| position := 5; state := true |}) two_active 1%nat
    {| accumulated_distance := 110; active := true;
       disable_work := Some 500 |}
    ltac:(repeat split) ltac:(reflexivity)) as (ld' & Hl' & Hreset & _).
  assert (Hoff : slot_active
            (fst (run_operation
                    {| require_prior_idle_ms := 0; excluded_positions := [40] |}
                    (key_event 1000 {| position := 5; state := true |})
                    two_active)) 1 = false) by reflexivity.
  split; [reflexivity|]. split; [reflexivity|]. split; [exact Hoff|].
  unfold slot_distance. rewrite Hl'. apply Hreset; [reflexivity|].
  unfold slot_active in Hoff. rewrite Hl' in Hoff. exact Hoff.
Defined.

(** ** One axis per call *)

Lemma running_sum_abs cfg last a samples :
  Forall (accepted cfg last) samples ->
  running_sum a samples = a + abs_sum samples.
Proof.
  intros Hall. revert a.
  induction Hall as [|sample rest (_ & _ & Hv) _ IH]; intros a.
  - cbn. lia.
  - rewrite running_sum_cons, IH, (sample_magnitude_abs _ Hv).
    cbn [abs_sum fold_right]. fold (abs_sum rest). lia.
Qed.

(** ** The accumulator up to the activating sample *)

Lemma abs_sum_take_cons sample rest i :
  abs_sum (take (S i) (sample :: rest))
  = Z.abs (value (snd sample)) + abs_sum (take i rest).
Proof. reflexivity. Qed.

Lemma fits_until_crossing_tail T a sample rest :
  fits_until_crossing T a (sample :: rest) ->
  a + Z.abs (value (snd sample)) < T ->
  fits_until_crossing T (a + Z.abs (value (snd sample))) rest.
Proof.
  intros Hfits Hbelow j Hj Hprev.
  specialize (Hfits (S j) ltac:(cbn [length]; lia)).
  rewrite abs_sum_take_cons in Hfits.
  rewrite <- Z.add_assoc. apply Hfits.
  intros i Hi. destruct i as [|i]; [lia|].
  rewrite abs_sum_take_cons. destruct i as [|i].
  - rewrite take_0. cbn [abs_sum fold_right]. lia.
  - rewrite Z.add_assoc. apply Hprev. lia.
Qed.

Lemma feed_first_crossing cfg param1 param2 param3 samples s ld :
  well_formed s ->
  (slot_of param1 < MAX_LAYERS)%nat ->
  layers s !! slot_of param1 = Some ld ->
  active ld = false ->
  INT_MIN <= accumulated_distance ld ->
  Forall (accepted cfg (last_tap_time s)) samples ->
  fits_until_crossing (int32_of param3) (accumulated_distance ld) samples ->
  let r := feed cfg param1 param2 param3 samples s in
  let a := accumulated_distance ld in
  (slot_active (fst r) (slot_of param1) = false ->
   slot_distance (fst r) (slot_of param1) = a + abs_sum samples
   /\ forall i, (1 <= i <= length samples)%nat ->
                a + abs_sum (take i samples) < int32_of param3)
  /\ (slot_active (fst r) (slot_of param1) = true ->
      exists k, (1 <= k <= length samples)%nat
        /\ slot_distance (fst r) (slot_of param1)
           = a + abs_sum (take k samples)
        /\ int32_of param3 <= a + abs_sum (take k samples)
        /\ forall i, (1 <= i < k)%nat ->
                     a + abs_sum (take i samples) < int32_of param3).
Proof.
  intros Hwf Hslot Hl Ha Hlo Hall. revert s ld Hwf Hl Ha Hlo Hall.
  induction samples as [|[now event] rest IH];
    intros s ld Hwf Hl Ha Hlo Hall Hfits; cbv zeta.
  - unfold feed; cbn [map run_operations fst].
    unfold slot_active, slot_distance. rewrite Hl, Ha.
    split; [|discriminate]. intros _.
    split; [cbn; lia | intros i Hi; cbn in Hi; lia].
  - apply Forall_cons in Hall as [Hacc Hrest].
    pose proof Hacc as (_ & _ & Hv). cbn [snd] in Hv.
    pose proof (sample_magnitude_abs event Hv) as Hmag.
    pose proof (Hfits 1%nat ltac:(cbn [length]; lia) ltac:(intros i Hi; lia))
      as Hfirst.
    rewrite abs_sum_take_cons, take_0 in Hfirst.
    cbn [abs_sum fold_right snd] in Hfirst.
    rewrite feed_cons. cbv zeta.
    rewrite (handle_event_accepted cfg now event param1 param2 param3 s ld
               Hwf Hslot Hl Ha Hacc Hlo)
      by (rewrite Hmag; lia).
    cbn [fst snd]. rewrite Hmag.
    set (acc := accumulated_distance ld + Z.abs (value event)) in *.
    destruct Hwf as (Hlen & Hx & Hy).
    destruct (Z.geb_spec acc (int32_of param3)) as [Hcross | Hbelow].
    + match goal with
      | |- context [feed _ _ _ _ rest ?s1] =>
          destruct (feed_active cfg param1 param2 param3 rest s1
                      (rearm (int16_of param2)
                         {| accumulated_distance := acc; active := true;
                            disable_work := disable_work ld |}))
            as (Hact & Hdist & _)
      end.
      { cbn [layers]. apply list_lookup_insert_eq. lia. }
      { unfold rearm. destruct (_ && _); reflexivity. }
      rewrite Hact, Hdist. split; [discriminate|]. intros _.
      exists 1%nat. rewrite abs_sum_take_cons, take_0.
      cbn [abs_sum fold_right snd length].
      assert (Hrearm : accumulated_distance
                (rearm (int16_of param2)
                   {| accumulated_distance := acc; active := true;
                      disable_work := disable_work ld |}) = acc)
        by (unfold rearm; destruct (_ && _); reflexivity).
      rewrite Hrearm. unfold acc.
      split; [lia|]. split; [lia|]. split; [unfold acc in Hcross; lia|].
      intros i Hi. lia.
    + assert (Hsame : rearm (int16_of param2)
                {| accumulated_distance := acc; active := false;
                   disable_work := disable_work ld |}
              = {| accumulated_distance := acc; active := false;
                   disable_work := disable_work ld |}) by reflexivity.
      rewrite Hsame.
      match goal with
      | |- context [feed _ _ _ _ rest ?s1] =>
          destruct (IH s1 {| accumulated_distance := acc; active := false;
                             disable_work := disable_work ld |})
            as (Hoff & Hon)
      end.
      * repeat split. cbn [layers]. rewrite length_insert. exact Hlen.
      * cbn [layers]. apply list_lookup_insert_eq. lia.
      * reflexivity.
      * cbn [accumulated_distance]. unfold acc, INT_MIN in *. lia.
      * exact Hrest.
      * cbn [accumulated_distance].
        apply (fits_until_crossing_tail _ _ (now, event) rest Hfits).
        exact Hbelow.
      * cbn [accumulated_distance] in Hoff, Hon. split.
        -- intros Hinactive. destruct (Hoff Hinactive) as [Hdist Hall'].
           split.
           ++ rewrite Hdist. unfold acc. cbn [abs_sum fold_right snd].
              fold (abs_sum rest). lia.
           ++ intros i Hi. destruct i as [|i]; [lia|].
              rewrite abs_sum_take_cons. cbn [snd]. destruct i as [|i].
              ** rewrite take_0. cbn [abs_sum fold_right]. unfold acc in Hbelow. lia.
              ** specialize (Hall' (S i) ltac:(cbn [length] in Hi; lia)).
                 unfold acc in Hall'. lia.
        -- intros Hactive. destruct (Hon Hactive) as (k & Hk & Hdist & Hge & Hprev).
           exists (S k). rewrite abs_sum_take_cons. cbn [snd length].
           split; [lia|]. split; [rewrite Hdist; unfold acc; lia|].
           split; [unfold acc in Hge; lia|].
           intros i Hi. destruct i as [|i]; [lia|].
           rewrite abs_sum_take_cons. cbn [snd]. destruct i as [|i].
           ++ rewrite take_0. cbn [abs_sum fold_right]. unfold acc in Hbelow. lia.
           ++ specialize (Hprev (S i) ltac:(lia)). unfold acc in Hprev. lia.
Qed.

(** C10, as stated, fails.  Once the slot is active the samples are no
    longer accumulated: with threshold 100 and samples of 60, 50 and 30 the
    accumulator holds 110, not 140.  And for a delta of [INT_MIN] the
    magnitude is not the absolute value, which no [int] holds. *)
Lemma accumulation_not_total :
  let cfg := {| require_prior_idle_ms := 0; excluded_positions := [] |} in
  let samples := [(10, rel_x 60); (20, rel_x 50); (30, rel_x 30)] in
  let r := feed cfg 1 500 100 samples threshold_temp_layer_init in
  (slot_distance (fst r) 1 = 110 /\ abs_sum samples = 140)
  /\ (INT_MIN <= -2147483648 <= INT_MAX
      /\ sample_magnitude (rel_x (-2147483648)) = -1073741824
      /\ Z.abs (-2147483648) = 2147483648).
Proof. vm_compute. repeat split; congruence. Qed.

(** C10 (amended): the two static buffers are (0, 0) in every reachable
    state, so the magnitude combined for every sample, the first included,
    whose delta is not [INT_MIN] is the absolute value of that delta alone.
    Consequently, for samples on an inactive slot that pass the idle gate,
    the sum up to the activating sample fitting the accumulator: while no
    sample has brought the sum to the threshold the slot is inactive and
    its accumulated distance is the initial value plus the absolute deltas
    of all the samples; once one has, the accumulated distance is the
    initial value plus the absolute deltas of the samples up to and
    including the first that brought the sum to the threshold, and of no
    later one. *)
Theorem per_axis_accumulation cfg :
  (forall allowed s,
      reachable cfg allowed s -> pending_dx s = 0 /\ pending_dy s = 0)
  /\ (forall allowed s event,
        reachable cfg allowed s ->
        is_motion event = true -> Z.abs (value event) <= INT_MAX ->
        calculate_distance (buffered_dx s event) (buffered_dy s event)
        = Z.abs (value event))
  /\ (forall param1 param2 param3 samples s ld,
        well_formed s ->
        (slot_of param1 < MAX_LAYERS)%nat ->
        layers s !! slot_of param1 = Some ld ->
        active ld = false ->
        INT_MIN <= accumulated_distance ld ->
        Forall (accepted cfg (last_tap_time s)) samples ->
        fits_until_crossing (int32_of param3) (accumulated_distance ld)
          samples ->
        let r := feed cfg param1 param2 param3 samples s in
        let a := accumulated_distance ld in
        (slot_active (fst r) (slot_of param1) = false ->
         slot_distance (fst r) (slot_of param1) = a + abs_sum samples
         /\ forall i, (1 <= i <= length samples)%nat ->
                      a + abs_sum (take i samples) < int32_of param3)
        /\ (slot_active (fst r) (slot_of param1) = true ->
            exists k, (1 <= k <= length samples)%nat
              /\ slot_distance (fst r) (slot_of param1)
                 = a + abs_sum (take k samples)
              /\ int32_of param3 <= a + abs_sum (take k samples)
              /\ forall i, (1 <= i < k)%nat ->
                           a + abs_sum (take i samples) < int32_of param3)).
Proof.
  split; [|split].
  - intros allowed s Hr.
    destruct (reachable_well_formed cfg allowed s Hr) as (_ & Hx & Hy). auto.
  - intros allowed s event Hr Hm Hv.
    destruct (reachable_well_formed cfg allowed s Hr) as (_ & Hx & Hy).
    rewrite (buffered_distance s event Hx Hy Hm).
    apply sample_magnitude_abs, Hv.
  - intros param1 param2 param3 samples s ld Hwf Hslot Hl Ha Hlo Hall Hfits.
    exact (feed_first_crossing cfg param1 param2 param3 samples s ld
             Hwf Hslot Hl Ha Hlo Hall Hfits).
Qed.

(** Threshold 100 and samples of 60, 50 and 30: the second sample
    activates, and the accumulator holds 110, the sum of the first two. *)
Lemma per_axis_accumulation_witness :
  let cfg := {| require_prior_idle_ms := 0; excluded_positions := [] |} in
  let samples := [(10, rel_x 60); (20, rel_y (-50)); (30, rel_x 30)] in
  let r := feed cfg 1 500 100 samples threshold_temp_layer_init in
  slot_active (fst r) 1 = true
  /\ slot_distance (fst r) 1 = 110
  /\ exists k, (1 <= k <= 3)%nat
       /\ slot_distance (fst r) 1 = 0 + abs_sum (take k samples)
       /\ 100 <= 0 + abs_sum (take k samples)
       /\ forall i, (1 <= i < k)%nat -> 0 + abs_sum (take i samples) < 100.
Proof.
  cbv zeta. split; [reflexivity|]. split; [reflexivity|].
  refine (proj2 (proj2 (proj2 (per_axis_accumulation
    {| require_prior_idle_ms := 0; excluded_positions := [] |}))
    1 500 100 [(10, rel_x 60); (20, rel_y (-50)); (30, rel_x 30)]
    threshold_temp_layer_init (deactivated None) _ _ _ _ _ _ _) _).
  - repeat split.
  - apply slot_of_lt. reflexivity.
  - reflexivity.
  - reflexivity.
  - vm_compute. discriminate.
  - repeat constructor; vm_compute; discriminate.
  - intros j Hj _. cbn [length] in Hj.
    assert (Hcases : j = 1%nat \/ j = 2%nat \/ j = 3%nat) by lia.
    destruct Hcases as [-> | [-> | ->]]; vm_compute; discriminate.
  - reflexivity.
Defined.

(** * Further properties of the code *)

(** ** The approximate magnitude *)

Lemma calculate_distance_swap dx dy :
  calculate_distance dx dy = calculate_distance dy dx.
Proof.
  unfold calculate_distance, c_abs.
  destruct (Z.gtb_spec (int32_of (Z.abs dx)) (int32_of (Z.abs dy)));
    destruct (Z.gtb_spec (int32_of (Z.abs dy)) (int32_of (Z.abs dx)));
    try reflexivity; try lia.
  replace (int32_of (Z.abs dx)) with (int32_of (Z.abs dy)) by lia.
  reflexivity.
Qed.

(** X1: the magnitude does not depend on the order of the two deltas nor
    on their signs, for all arguments. *)
Theorem calculate_distance_symmetric dx dy :
  calculate_distance dx dy = calculate_distance dy dx
  /\ calculate_distance (- dx) dy = calculate_distance dx dy
  /\ calculate_distance dx (- dy) = calculate_distance dx dy.
Proof.
  split; [apply calculate_distance_swap|].
  unfold calculate_distance, c_abs. rewrite !Z.abs_opp. split; reflexivity.
Qed.

(** X2: when the magnitude fits an [int] it lies between the larger of the
    two absolute deltas and their sum, it is 0 only for two zero deltas,
    and it is close to the Euclidean length: at most sqrt(5)/2 times it
    (11.8% above) and less than 1/2 below it. *)
Theorem calculate_distance_accuracy dx dy :
  magnitude_formula dx dy <= INT_MAX ->
  let d := calculate_distance dx dy in
  Z.max (Z.abs dx) (Z.abs dy) <= d <= Z.abs dx + Z.abs dy
  /\ (d = 0 <-> dx = 0 /\ dy = 0)
  /\ 4 * (d * d) <= 5 * (dx * dx + dy * dy)
  /\ 4 * (dx * dx + dy * dy) <= (2 * d + 1) * (2 * d + 1).
Proof.
  intros Hfit. cbv zeta. rewrite (calculate_distance_fits dx dy Hfit).
  unfold magnitude_formula.
  assert (Hsq : dx * dx + dy * dy
                = Z.max (Z.abs dx) (Z.abs dy) * Z.max (Z.abs dx) (Z.abs dy)
                  + Z.min (Z.abs dx) (Z.abs dy) * Z.min (Z.abs dx) (Z.abs dy)).
  { rewrite <- (Z.abs_square dx), <- (Z.abs_square dy).
    destruct (Z.le_ge_cases (Z.abs dx) (Z.abs dy));
      [rewrite Z.max_r, Z.min_l by lia | rewrite Z.max_l, Z.min_r by lia];
      lia. }
  rewrite Hsq.
  set (M := Z.max (Z.abs dx) (Z.abs dy)).
  set (m := Z.min (Z.abs dx) (Z.abs dy)).
  assert (Hm : 0 <= m <= M) by (unfold m, M; lia).
  assert (Hsum : Z.abs dx + Z.abs dy = M + m) by (unfold m, M; lia).
  pose proof (Z.div_mod m 2 ltac:(lia)) as Hdiv.
  pose proof (Z.mod_pos_bound m 2 ltac:(lia)) as Hmod.
  set (h := m / 2) in *.
  split; [lia|]. split.
  - split; [intros H0; unfold M in *; lia|].
    intros [Hx Hy]. assert (HM : M = 0) by (unfold M; lia). lia.
  - assert (Hlow : 2 * h <= m <= 2 * h + 1) by lia.
    assert (Hsq1 : (2 * M + 2 * h) * (2 * M + 2 * h)
                   <= (2 * M + m) * (2 * M + m))
      by (apply Z.mul_le_mono_nonneg; lia).
    assert (Hsq2 : (2 * M + m) * (2 * M + m)
                   <= (2 * M + 2 * h + 1) * (2 * M + 2 * h + 1))
      by (apply Z.mul_le_mono_nonneg; lia).
    pose proof (Z.square_nonneg (M - 2 * m)) as Hsq3.
    assert (Hsq4 : 0 <= m * (M - m)) by (apply Z.mul_nonneg_nonneg; lia).
    split; lia.
Qed.

Lemma calculate_distance_accuracy_witness :
  magnitude_formula 3 (-4) <= INT_MAX
  /\ 4 * (calculate_distance 3 (-4) * calculate_distance 3 (-4))
     <= 5 * (3 * 3 + -4 * -4).
Proof.
  split; [vm_compute; discriminate|].
  exact (proj1 (proj2 (proj2 (calculate_distance_accuracy 3 (-4)
           ltac:(vm_compute; discriminate))))).
Defined.

(** X3: within the range of [int] the magnitude grows with the absolute
    value of either delta. *)
Theorem calculate_distance_monotone dx dx' dy :
  Z.abs dx <= Z.abs dx' ->
  magnitude_formula dx' dy <= INT_MAX ->
  calculate_distance dx dy <= calculate_distance dx' dy
  /\ calculate_distance dy dx <= calculate_distance dy dx'.
Proof.
  intros Hle Hfit.
  assert (Hmono : magnitude_formula dx dy <= magnitude_formula dx' dy).
  { unfold magnitude_formula in *.
    pose proof (Z.div_le_mono (Z.min (Z.abs dx) (Z.abs dy))
                  (Z.min (Z.abs dx') (Z.abs dy)) 2 ltac:(lia) ltac:(lia)).
    lia. }
  rewrite (calculate_distance_swap dy dx), (calculate_distance_swap dy dx').
  rewrite (calculate_distance_fits dx dy), (calculate_distance_fits dx' dy)
    by lia.
  lia.
Qed.

Lemma calculate_distance_monotone_witness :
  Z.abs 3 <= Z.abs (-8) /\ magnitude_formula (-8) 4 <= INT_MAX
  /\ calculate_distance 3 4 <= calculate_distance (-8) 4.
Proof.
  split; [vm_compute; discriminate|]. split; [vm_compute; discriminate|].
  exact (proj1 (calculate_distance_monotone 3 (-8) 4
           ltac:(vm_compute; discriminate) ltac:(vm_compute; discriminate))).
Defined.

(** ** The event handler: what a call leaves alone *)

(** X4: an event that is not a relative X or Y movement (a wheel or a
    button event, say) changes nothing and issues nothing, whatever the
    slot's state: it does not refresh the timer of an active slot. *)
Theorem other_events_ignored cfg now event param1 param2 param3 s :
  is_motion event = false ->
  threshold_temp_layer_handle_event cfg now event param1 param2 param3 s
  = (s, []).
Proof.
  intros Hm. rewrite handle_event_unfold, Hm.
  destruct (uint8_of param1 >=? Z.of_nat MAX_LAYERS); [reflexivity|].
  destruct (layers s !! slot_of param1) as [ld|]; [|reflexivity].
  destruct (gate_closed cfg s now ld); reflexivity.
Qed.

Lemma other_events_ignored_witness :
  let wheel := {| type := INPUT_EV_REL; code := 8; value := 1 |} in
  let cfg := {| require_prior_idle_ms := 0; excluded_positions := [] |} in
  is_motion wheel = false
  /\ threshold_temp_layer_handle_event cfg 900 wheel 1 500 100 two_active
     = (two_active, []).
Proof.
  cbv zeta. split; [reflexivity|].
  apply other_events_ignored. reflexivity.
Defined.

Lemma work_expire_spec slot s :
  work_expire slot s =
  match layers s !! slot with
  | Some ld =>
      if bool_decide (slot < MAX_LAYERS)%nat && active ld
      then (set_layers s (<[slot := deactivated None]>
                            (alter clear_work slot (layers s))),
            [zmk_keymap_layer_deactivate slot])
      else (set_layers s (alter clear_work slot (layers s)), [])
  | None => (set_layers s (alter clear_work slot (layers s)), [])
  end.
Proof.
  unfold work_expire. rewrite layer_disable_work_handler_spec.
  unfold set_layers at 1; cbn [layers]. rewrite list_lookup_alter_eq.
  destruct (layers s !! slot) as [ld|]; cbn [fmap option_fmap option_map];
    [|reflexivity].
  cbn [clear_work active disable_work].
  destruct (bool_decide (slot < MAX_LAYERS)%nat && active ld); reflexivity.
Qed.

(** X5: a call of the event handler, and the expiry of a work item, touch
    one slot only: the time of the last key press, the number of slots and
    every other slot are as before (and the expiry leaves the two statics
    alone too). *)
Theorem one_slot_touched cfg s :
  (forall now event param1 param2 param3,
     let s' := fst (threshold_temp_layer_handle_event cfg now event
                      param1 param2 param3 s) in
     last_tap_time s' = last_tap_time s
     /\ length (layers s') = length (layers s)
     /\ forall j, j <> slot_of param1 -> layers s' !! j = layers s !! j)
  /\ (forall slot,
        let s' := fst (work_expire slot s) in
        last_tap_time s' = last_tap_time s
        /\ pending_dx s' = pending_dx s /\ pending_dy s' = pending_dy s
        /\ length (layers s') = length (layers s)
        /\ forall j, j <> slot -> layers s' !! j = layers s !! j).
Proof.
  split.
  - intros now event param1 param2 param3. cbv zeta.
    split; [|split].
    + rewrite handle_event_unfold.
      destruct (uint8_of param1 >=? Z.of_nat MAX_LAYERS); [reflexivity|].
      destruct (layers s !! slot_of param1) as [ld|]; [|reflexivity].
      destruct (gate_closed cfg s now ld); [reflexivity|].
      destruct (is_motion event); reflexivity.
    + exact (run_operation_length cfg
               (motion_sample now event param1 param2 param3) s).
    + intros j Hj. rewrite handle_event_unfold.
      destruct (uint8_of param1 >=? Z.of_nat MAX_LAYERS); [reflexivity|].
      destruct (layers s !! slot_of param1) as [ld|]; [|reflexivity].
      destruct (gate_closed cfg s now ld); [reflexivity|].
      destruct (is_motion event); [|reflexivity].
      cbn [fst layers]. apply list_lookup_insert_ne. congruence.
  - intros slot. cbv zeta.
    pose proof (run_operation_length cfg (timer_fire slot) s) as Hlen.
    cbn [run_operation] in Hlen.
    split; [|split; [|split; [|split; [exact Hlen|]]]];
      rewrite work_expire_spec;
      destruct (layers s !! slot) as [ld|];
      try destruct (bool_decide (slot < MAX_LAYERS)%nat && active ld);
      try reflexivity;
      intros j Hj; cbn [fst set_layers layers];
      rewrite ?list_lookup_insert_ne by done;
      apply list_lookup_alter_ne; done.
Qed.

(** X6: the commands of one operation.  A call of the event handler issues
    nothing or one activate, for its slot; a key event issues deactivates
    only, and the expiry of a work item nothing or one deactivate for its
    slot; and every command is for a layer below [MAX_LAYERS]. *)
Theorem commands_of_operation cfg op s :
  let out := snd (run_operation cfg op s) in
  Forall (fun c => (command_layer c < MAX_LAYERS)%nat) out
  /\ match op with
     | motion_sample _ _ param1 _ _ =>
         out = [] \/ out = [zmk_keymap_layer_activate (slot_of param1)]
     | key_event _ _ =>
         exists slots, out = map zmk_keymap_layer_deactivate slots
     | timer_fire slot =>
         out = [] \/ out = [zmk_keymap_layer_deactivate slot]
     end.
Proof.
  cbv zeta. destruct op as [now event p1 p2 p3 | now ev | slot];
    cbn [run_operation].
  - rewrite handle_event_unfold.
    destruct (Z.geb_spec (uint8_of p1) (Z.of_nat MAX_LAYERS)) as [Hge | Hlt];
      [split; [constructor | left; reflexivity]|].
    destruct (layers s !! slot_of p1) as [ld|];
      [|split; [constructor | left; reflexivity]].
    destruct (gate_closed cfg s now ld);
      [split; [constructor | left; reflexivity]|].
    destruct (is_motion event); [|split; [constructor | left; reflexivity]].
    cbv zeta. cbn [snd]. unfold accumulate.
    destruct (active ld); [split; [constructor | left; reflexivity]|].
    destruct (_ >=? int32_of p3); cbn [snd];
      [|split; [constructor | left; reflexivity]].
    split; [|right; reflexivity].
    constructor; [|constructor]. cbn [command_layer]. apply slot_of_lt. lia.
  - unfold handle_position_state_changed.
    destruct (position_excluded _ _);
      [split; [constructor | exists []; reflexivity]|].
    destruct (state ev); [|split; [constructor | exists []; reflexivity]].
    pose proof (deactivate_loop_spec MAX_LAYERS 0 (layers s)) as [_ Hout].
    destruct (deactivate_loop MAX_LAYERS 0 (layers s)) as [ls out].
    cbn [snd] in *. subst out. split; [|eexists; reflexivity].
    apply Forall_forall. intros c Hc. apply list_elem_of_In in Hc.
    apply in_map_iff in Hc as (j & <- & Hj).
    apply active_slots_In in Hj as [Hj _]. exact Hj.
  - rewrite work_expire_spec.
    destruct (layers s !! slot) as [ld|];
      [|split; [constructor | left; reflexivity]].
    destruct (bool_decide (slot < MAX_LAYERS)%nat) eqn:Hb; cbn [andb];
      [|split; [constructor | left; reflexivity]].
    destruct (active ld); [|split; [constructor | left; reflexivity]].
    cbn [snd]. split; [|right; reflexivity].
    constructor; [|constructor]. cbn [command_layer].
    apply bool_decide_eq_true_1 in Hb. exact Hb.
Qed.

(** X7: a timeout that reads as zero or negative arms no timer.  The
    handler reads the low 16 bits of the parameter as a signed number, so
    this is the case for 0 and for every timeout with bit 15 set, such as
    40000 ms: a call then leaves the work item of every slot as it was. *)
Theorem no_timer_without_positive_timeout cfg now event param1 param2 param3 s :
  param2 mod 65536 = 0 \/ 32768 <= param2 mod 65536 ->
  let s' := fst (threshold_temp_layer_handle_event cfg now event
                   param1 param2 param3 s) in
  forall j, disable_work <$> layers s' !! j = disable_work <$> layers s !! j.
Proof.
  intros Hbits. cbv zeta. intros j.
  assert (Hneg : int16_of param2 <= 0).
  { unfold int16_of, wrap_signed.
    change (2 ^ (16 - 1)) with 32768. change (2 ^ 16) with 65536.
    pose proof (Z.mod_pos_bound param2 65536 ltac:(lia)) as Hb.
    rewrite <- (Zplus_mod_idemp_l param2 32768 65536).
    destruct Hbits as [Hz | Hhi].
    - rewrite Hz, Z.mod_small by lia. lia.
    - replace ((param2 mod 65536 + 32768) mod 65536)
        with (param2 mod 65536 - 32768); [lia|].
      apply Z.mod_unique with (q := 1); lia. }
  rewrite handle_event_unfold.
  destruct (uint8_of param1 >=? Z.of_nat MAX_LAYERS); [reflexivity|].
  destruct (layers s !! slot_of param1) as [ld|] eqn:Hl; [|reflexivity].
  destruct (gate_closed cfg s now ld); [reflexivity|].
  destruct (is_motion event); [|reflexivity].
  cbv zeta. cbn [fst layers].
  destruct (decide (j = slot_of param1)) as [-> | Hne];
    [|rewrite list_lookup_insert_ne by done; reflexivity].
  rewrite list_lookup_insert_eq by (eapply lookup_lt_Some; eassumption).
  rewrite Hl. cbn [fmap option_fmap option_map]. f_equal.
  unfold rearm.
  destruct (Z.gtb_spec (int16_of param2) 0) as [Hpos | _]; [lia|].
  rewrite andb_false_r. unfold accumulate.
  destruct (active ld); [reflexivity|].
  destruct (_ >=? int32_of param3); reflexivity.
Qed.

Lemma no_timer_without_positive_timeout_witness :
  let cfg := {| require_prior_idle_ms := 0; excluded_positions := [] |} in
  let r := threshold_temp_layer_handle_event cfg 10 (rel_x 120) 1 40000 100
             threshold_temp_layer_init in
  32768 <= 40000 mod 65536
  /\ snd r = [zmk_keymap_layer_activate 1]
  /\ disable_work <$> layers (fst r) !! 1%nat = Some None.
Proof.
  cbv zeta. split; [vm_compute; discriminate|]. split; [reflexivity|].
  rewrite (no_timer_without_positive_timeout
             {| require_prior_idle_ms := 0; excluded_positions := [] |}
             10 (rel_x 120) 1 40000 100 threshold_temp_layer_init
             ltac:(right; vm_compute; discriminate) 1%nat).
  reflexivity.
Defined.

(** ** The key listener: exclusion and the idle window *)

(** X8: the excluded positions are stored as [uint8_t], so a position of
    256 or more is never excluded: the listener handles its events as with
    an empty exclusion list. *)
Theorem wide_position_never_excluded cfg now ev s :
  Forall (fun p => 0 <= p <= 255) (excluded_positions cfg) ->
  256 <= position ev ->
  handle_position_state_changed cfg now ev s
  = handle_position_state_changed (without_exclusions cfg) now ev s.
Proof.
  intros Hbytes Hwide. unfold handle_position_state_changed.
  cbn [without_exclusions excluded_positions position_excluded].
  replace (position_excluded (excluded_positions cfg) (position ev))
    with false; [reflexivity|].
  symmetry. apply not_true_is_false. rewrite position_excluded_In.
  intros Hin. apply list_elem_of_In in Hin.
  rewrite Forall_forall in Hbytes. specialize (Hbytes _ Hin). lia.
Qed.

Lemma wide_position_never_excluded_witness :
  let cfg := {| require_prior_idle_ms := 0; excluded_positions := [44] |} in
  let ev := {| position := 300; state := true |} in
  Forall (fun p => 0 <= p <= 255) (excluded_positions cfg)
  /\ 256 <= position ev
  /\ snd (handle_position_state_changed cfg 1000 ev two_active)
     = [zmk_keymap_layer_deactivate 1; zmk_keymap_layer_deactivate 6].
Proof.
  cbv zeta. split; [repeat constructor; discriminate|].
  split; [vm_compute; discriminate|].
  rewrite (wide_position_never_excluded
             {| require_prior_idle_ms := 0; excluded_positions := [44] |}
             1000 {| position := 300; state := true |} two_active
             ltac:(repeat constructor; discriminate)
             ltac:(vm_compute; discriminate)).
  reflexivity.
Defined.

(** X9: after a press of a position that is not excluded, every sample that
    arrives before the required idle time has passed is dropped, whichever
    slot it is for: the press has left no slot active, so nothing is exempt
    from the gate. *)
Theorem samples_dropped_after_press cfg t ev now event param1 param2 param3 s :
  length (layers s) = MAX_LAYERS ->
  ~ In (position ev) (excluded_positions cfg) ->
  state ev = true ->
  0 <= t < 2 ^ 63 -> 0 <= now < 2 ^ 63 ->
  now - t < require_prior_idle_ms cfg ->
  0 < require_prior_idle_ms cfg ->
  let s1 := fst (handle_position_state_changed cfg t ev s) in
  threshold_temp_layer_handle_event cfg now event param1 param2 param3 s1
  = (s1, []).
Proof.
  intros Hlen Hnot Hpress Ht Hnow Hearly Hidle. cbv zeta.
  unfold handle_position_state_changed.
  destruct (position_excluded (excluded_positions cfg) (position ev)) eqn:Hex.
  { apply position_excluded_In in Hex. contradiction. }
  rewrite Hpress, (deactivate_loop_all _ Hlen). cbn [fst].
  rewrite handle_event_unfold. cbn [layers last_tap_time].
  destruct (uint8_of param1 >=? Z.of_nat MAX_LAYERS); [reflexivity|].
  rewrite list_lookup_fmap.
  destruct (layers s !! slot_of param1) as [ld|];
    cbn [fmap option_fmap option_map]; [|reflexivity].
  replace (gate_closed cfg _ now (reset_if_active ld)) with true;
    [reflexivity|].
  symmetry. unfold gate_closed. cbn [last_tap_time].
  rewrite int64_of_small by lia.
  assert (Hoff : active (reset_if_active ld) = false).
  { unfold reset_if_active. destruct (active ld) eqn:Ha; [reflexivity | exact Ha]. }
  rewrite Hoff. cbn [negb andb].
  destruct (Z.gtb_spec (require_prior_idle_ms cfg) 0); [|lia].
  destruct (Z.ltb_spec (now - t) (require_prior_idle_ms cfg)); [reflexivity | lia].
Qed.

Lemma samples_dropped_after_press_witness :
  let cfg := {| require_prior_idle_ms := 200; excluded_positions := [40] |} in
  let ev := {| position := 5; state := true |} in
  let s1 := fst (handle_position_state_changed cfg 1000 ev two_active) in
  slot_active two_active 1 = true
  /\ threshold_temp_layer_handle_event cfg 1150 (rel_x 500) 1 500 100 s1
     = (s1, []).
Proof.
  cbv zeta. split; [reflexivity|].
  apply (samples_dropped_after_press
           {| require_prior_idle_ms := 200; excluded_positions := [40] |}
           1000 {| position := 5; state := true |} 1150 (rel_x 500) 1 500 100
           two_active).
  - reflexivity.
  - cbn. intros [H | []]. discriminate.
  - reflexivity.
  - vm_compute. split; [discriminate | reflexivity].
  - vm_compute. split; [discriminate | reflexivity].
  - reflexivity.
  - reflexivity.
Defined.

(** ** Slots over a run *)

(** X10: whichever operation deactivates a slot, it leaves the slot as
    initialisation does: accumulator 0, inactive, no timer pending. *)
Theorem deactivation_restores_initial_slot cfg op s slot ld ld' :
  length (layers s) = MAX_LAYERS ->
  layers s !! slot = Some ld ->
  layers (fst (run_operation cfg op s)) !! slot = Some ld' ->
  active ld = true -> active ld' = false ->
  ld' = {| accumulated_distance := 0; active := false; disable_work := None |}
  /\ threshold_temp_layer_init.(layers) !! slot = Some ld'.
Proof.
  intros Hlen Hl Hl' Ha Ha'.
  rewrite (run_operation_slot cfg op s slot ld Hlen Hl) in Hl'.
  injection Hl' as <-.
  assert (Hval : slot_after cfg op s slot ld = deactivated None).
  { destruct op as [now event p1 p2 p3 | now ev | fired];
      cbn [slot_after] in *.
    - exfalso.
      destruct (bool_decide (slot_of p1 = slot)
                && negb (gate_closed cfg s now ld) && is_motion event);
        [|congruence].
      unfold accumulate, rearm in Ha'. rewrite Ha in Ha'. cbn [fst] in Ha'.
      rewrite Ha in Ha'. destruct (true && _) in Ha'; cbn in Ha'; congruence.
    - destruct (negb _ && state ev); [|congruence].
      unfold reset_if_active. rewrite Ha. reflexivity.
    - destruct (bool_decide (fired = slot)); [|congruence].
      rewrite Ha. reflexivity. }
  rewrite Hval. split; [reflexivity|].
  cbn [threshold_temp_layer_init layers].
  apply lookup_replicate_2. rewrite <- Hlen.
  eapply lookup_lt_Some; eassumption.
Qed.

Lemma deactivation_restores_initial_slot_witness :
  let cfg := {| require_prior_idle_ms := 0; excluded_positions := [] |} in
  let after := fst (run_operation cfg (timer_fire 1) two_active) in
  layers two_active !! 1%nat
  = Some {| accumulated_distance := 110; active := true;
            disable_work := Some 500 |}
  /\ layers after !! 1%nat = layers threshold_temp_layer_init !! 1%nat.
Proof.
  cbv zeta. split; [reflexivity|].
  assert (Hl' : layers (fst (run_operation
                   {| require_prior_idle_ms := 0; excluded_positions := [] |}
                   (timer_fire 1) two_active)) !! 1%nat
                = Some (deactivated None)) by reflexivity.
  rewrite Hl'. symmetry.
  exact (proj2 (deactivation_restores_initial_slot
    {| require_prior_idle_ms := 0; excluded_positions := [] |}
    (timer_fire 1) two_active 1%nat
    {| accumulated_distance := 110; active := true;
       disable_work := Some 500 |}
    (deactivated None)
    ltac:(reflexivity) ltac:(reflexivity) Hl'
    ltac:(reflexivity) ltac:(reflexivity))).
Defined.

Lemma int16_of_range z : - 32768 <= int16_of z <= 32767.
Proof.
  unfold int16_of, wrap_signed.
  change (2 ^ (16 - 1)) with 32768. change (2 ^ 16) with 65536.
  pose proof (Z.mod_pos_bound (z + 32768) 65536 ltac:(lia)). lia.
Qed.

(** X11: in every state reachable from initialisation, whatever bindings
    the samples come with, a pending timer belongs to an active slot and
    its delay is between 1 and 32767 ms, and every accumulator holds a
    32-bit [int]. *)
Theorem pending_timer_only_when_active cfg allowed s :
  reachable cfg allowed s ->
  forall slot ld,
    layers s !! slot = Some ld ->
    INT_MIN <= accumulated_distance ld <= INT_MAX
    /\ forall t, disable_work ld = Some t ->
                 active ld = true /\ 1 <= t <= 32767.
Proof.
  induction 1 as [|s op Hr IH Hop].
  - intros slot ld Hl. apply lookup_replicate in Hl as [-> _]. cbn.
    split; [unfold INT_MIN, INT_MAX; lia | discriminate].
  - intros slot ld' Hl'.
    destruct (reachable_well_formed cfg allowed s Hr) as (Hlen & _ & _).
    destruct (lookup_lt_is_Some_2 (layers s) slot) as [ld Hl].
    { rewrite <- (run_operation_length cfg op s).
      eapply lookup_lt_Some; eassumption. }
    rewrite (run_operation_slot cfg op s slot ld Hlen Hl) in Hl'.
    injection Hl' as <-. destruct (IH slot ld Hl) as [Hacc Htimer].
    destruct op as [now event p1 p2 p3 | now ev | fired]; cbn [slot_after].
    + destruct (bool_decide (slot_of p1 = slot)
                && negb (gate_closed cfg s now ld) && is_motion event);
        [|split; assumption].
      pose proof (int16_of_range p2) as H16.
      unfold accumulate, rearm. destruct (active ld) eqn:Ha; cbn [fst active].
      * rewrite Ha. cbn [andb].
        destruct (Z.gtb_spec (int16_of p2) 0);
          cbn [accumulated_distance disable_work active].
        -- split; [exact Hacc|]. intros t [= <-]. split; [reflexivity | lia].
        -- split; [exact Hacc|]. intros t Ht.
           destruct (Htimer t Ht) as [_ Hrange]. split; [exact Ha | exact Hrange].
      * pose proof (int32_of_range
                      (accumulated_distance ld
                       + calculate_distance (buffered_dx s event)
                                            (buffered_dy s event))) as H32.
        destruct (_ >=? int32_of p3); cbn [fst active andb].
        -- destruct (Z.gtb_spec (int16_of p2) 0);
             cbn [accumulated_distance disable_work active].
           ++ split; [exact H32|]. intros t [= <-]. split; [reflexivity | lia].
           ++ split; [exact H32|]. intros t Ht.
              destruct (Htimer t Ht) as [Habs _]. congruence.
        -- cbn [accumulated_distance disable_work active].
           split; [exact H32|]. intros t Ht.
           destruct (Htimer t Ht) as [Habs _]. congruence.
    + destruct (negb _ && state ev); [|split; assumption].
      unfold reset_if_active. destruct (active ld) eqn:Ha.
      * cbn. split; [unfold INT_MIN, INT_MAX; lia | discriminate].
      * split; [exact Hacc|]. intros t Ht.
        destruct (Htimer t Ht) as [Hon _]. congruence.
    + destruct (bool_decide (fired = slot)); [|split; assumption].
      destruct (active ld) eqn:Ha; cbn.
      * split; [unfold INT_MIN, INT_MAX; lia | discriminate].
      * split; [exact Hacc | discriminate].
Qed.

Lemma pending_timer_only_when_active_witness :
  let cfg := {| require_prior_idle_ms := 0; excluded_positions := [] |} in
  layers (fst (run_operations cfg sample_run threshold_temp_layer_init))
    !! 1%nat
  = Some {| accumulated_distance := 140; active := true;
            disable_work := Some 500 |}
  /\ (true = true /\ 1 <= 500 <= 32767).
Proof.
  cbv zeta. split; [vm_compute; reflexivity|].
  refine (proj2 (pending_timer_only_when_active
    {| require_prior_idle_ms := 0; excluded_positions := [] |}
    (fun _ => True)
    (fst (run_operations _ sample_run threshold_temp_layer_init)) _
    1%nat {| accumulated_distance := 140; active := true;
             disable_work := Some 500 |} _) 500 eq_refl).
  - apply reachable_run; [apply reachable_init|]. repeat constructor.
  - vm_compute. reflexivity.
Defined.

(** X12: no overflow in normal use.  When every sample has a delta of at
    most D in absolute value and every threshold, as the handler reads it,
    is at most B, with B >= 1 and B + D within the range of [int], then in
    every reachable state each accumulator is non-negative and below
    B + D, and below B while the slot is inactive: no sum ever wraps. *)
Theorem accumulator_bounded cfg B D s :
  1 <= B -> 0 <= D -> B + D <= INT_MAX ->
  reachable cfg (bounded_op B D) s ->
  forall slot ld,
    layers s !! slot = Some ld ->
    0 <= accumulated_distance ld < B + D
    /\ (active ld = false -> accumulated_distance ld < B).
Proof.
  intros HB HD Hfit. induction 1 as [|s op Hr IH Hop].
  - intros slot ld Hl. apply lookup_replicate in Hl as [-> _]. cbn. lia.
  - intros slot ld' Hl'.
    destruct (reachable_well_formed cfg _ s Hr) as (Hlen & Hx & Hy).
    destruct (lookup_lt_is_Some_2 (layers s) slot) as [ld Hl].
    { rewrite <- (run_operation_length cfg op s).
      eapply lookup_lt_Some; eassumption. }
    rewrite (run_operation_slot cfg op s slot ld Hlen Hl) in Hl'.
    injection Hl' as <-. destruct (IH slot ld Hl) as [Hacc Hoff].
    assert (Hrearm : forall t l,
              active (rearm t l) = active l
              /\ accumulated_distance (rearm t l) = accumulated_distance l).
    { intros t l. unfold rearm.
      destruct (active l && (t >? 0)); split; reflexivity. }
    destruct op as [now event p1 p2 p3 | now ev | fired]; cbn [slot_after].
    + destruct (bool_decide (slot_of p1 = slot)
                && negb (gate_closed cfg s now ld)); cbn [andb];
        [|split; assumption].
      destruct (is_motion event) eqn:Hm; [|split; assumption].
      destruct Hop as [Hv HT].
      rewrite (buffered_distance s event Hx Hy Hm).
      rewrite (sample_magnitude_abs event) by lia.
      match goal with
      | |- context [rearm ?t ?l] => destruct (Hrearm t l) as [-> ->]
      end.
      unfold accumulate. destruct (active ld) eqn:Ha; cbn [fst].
      * split; [exact Hacc | congruence].
      * first [specialize (Hoff Ha) | specialize (Hoff eq_refl)].
        rewrite int32_of_small by (unfold INT_MIN; lia).
        destruct (Z.geb_spec (accumulated_distance ld + Z.abs (value event))
                    (int32_of p3));
          cbn [fst accumulated_distance active];
          (split; [lia | intros; (discriminate || lia)]).
    + destruct (negb _ && state ev); [|split; assumption].
      unfold reset_if_active. destruct (active ld) eqn:Ha; [cbn; lia|].
      split; [exact Hacc | intros _; first [exact (Hoff Ha) | exact (Hoff eq_refl)]].
    + destruct (bool_decide (fired = slot)); [|split; assumption].
      destruct (active ld) eqn:Ha; cbn; [lia|].
      split; [exact Hacc | intros _; first [exact (Hoff Ha) | exact (Hoff eq_refl)]].
Qed.

Lemma accumulator_bounded_witness :
  let cfg := {| require_prior_idle_ms := 0; excluded_positions := [] |} in
  layers (fst (run_operations cfg sample_run threshold_temp_layer_init))
    !! 1%nat
  = Some {| accumulated_distance := 140; active := true;
            disable_work := Some 500 |}
  /\ 0 <= 140 < 100 + 127.
Proof.
  cbv zeta. split; [vm_compute; reflexivity|].
  refine (proj1 (accumulator_bounded
    {| require_prior_idle_ms := 0; excluded_positions := [] |}
    100 127
    (fst (run_operations _ sample_run threshold_temp_layer_init))
    _ _ _ _
    1%nat {| accumulated_distance := 140; active := true;
             disable_work := Some 500 |} _)).
  - lia.
  - lia.
  - vm_compute. discriminate.
  - apply reachable_run; [apply reachable_init|].
    repeat constructor; vm_compute; discriminate.
  - vm_compute. reflexivity.
Defined.

(** X13: a threshold parameter of 2^31 or more is read as a negative [int],
    so the first sample an inactive slot takes activates it, however small
    the sample. *)
Theorem huge_threshold_activates_at_once
    cfg now event param1 param2 param3 s ld :
  2147483648 <= param3 < 4294967296 ->
  well_formed s ->
  (slot_of param1 < MAX_LAYERS)%nat ->
  layers s !! slot_of param1 = Some ld ->
  active ld = false ->
  accepted cfg (last_tap_time s) (now, event) ->
  0 <= accumulated_distance ld ->
  accumulated_distance ld + Z.abs (value event) <= INT_MAX ->
  let r := threshold_temp_layer_handle_event cfg now event
             param1 param2 param3 s in
  snd r = [zmk_keymap_layer_activate (slot_of param1)]
  /\ slot_active (fst r) (slot_of param1) = true.
Proof.
  intros Hbig Hwf Hslot Hl Ha Hacc Hpos Hfit. cbv zeta.
  assert (Hneg : int32_of param3 < 0).
  { unfold int32_of, wrap_signed.
    change (2 ^ (32 - 1)) with 2147483648. change (2 ^ 32) with 4294967296.
    replace ((param3 + 2147483648) mod 4294967296) with (param3 - 2147483648);
      [lia|].
    apply Z.mod_unique with (q := 1); lia. }
  pose proof Hacc as (_ & _ & Hv). cbn [snd] in Hv.
  pose proof (sample_magnitude_abs event Hv) as Hmag.
  rewrite (handle_event_accepted cfg now event param1 param2 param3 s ld
             Hwf Hslot Hl Ha Hacc) by (unfold INT_MIN; lia).
  destruct (Z.geb_spec (accumulated_distance ld + sample_magnitude event)
              (int32_of param3)) as [_ | Hlt]; [|rewrite Hmag in Hlt; lia].
  cbn [fst snd]. split; [reflexivity|].
  unfold slot_active; cbn [layers].
  destruct Hwf as (Hlen & _).
  rewrite list_lookup_insert_eq by lia.
  unfold rearm. destruct (_ && _); reflexivity.
Qed.

Lemma huge_threshold_activates_at_once_witness :
  let cfg := {| require_prior_idle_ms := 0; excluded_positions := [] |} in
  let r := threshold_temp_layer_handle_event cfg 10 (rel_y 1) 2 500 3000000000
             threshold_temp_layer_init in
  2147483648 <= 3000000000 < 4294967296
  /\ snd r = [zmk_keymap_layer_activate 2].
Proof.
  cbv zeta. split; [vm_compute; split; [discriminate | reflexivity]|].
  refine (proj1 (huge_threshold_activates_at_once
    {| require_prior_idle_ms := 0; excluded_positions := [] |}
    10 (rel_y 1) 2 500 3000000000 threshold_temp_layer_init
    (deactivated None) _ _ _ _ _ _ _ _)).
  - vm_compute. split; [discriminate | reflexivity].
  - repeat split.
  - apply slot_of_lt. reflexivity.
  - reflexivity.
  - reflexivity.
  - repeat split; vm_compute; discriminate.
  - cbn. lia.
  - vm_compute. discriminate.
Defined.

(** ** The commands of a run and the keymap *)

Lemma keymap_after_app on j out1 out2 :
  keymap_after on j (out1 ++ out2)
  = keymap_after (keymap_after on j out1) j out2.
Proof.
  revert on. induction out1 as [|[l | l] rest IH]; intros on;
    cbn [app keymap_after]; [reflexivity | apply IH | apply IH].
Qed.

Lemma toggles_app on j out1 out2 :
  toggles on j (out1 ++ out2)
  = toggles on j out1 && toggles (keymap_after on j out1) j out2.
Proof.
  revert on. induction out1 as [|[l | l] rest IH]; intros on;
    cbn [app toggles keymap_after]; [reflexivity | |];
    destruct (l =? j)%nat; rewrite IH; try reflexivity;
    apply andb_assoc.
Qed.

Lemma deactivates_absent on j slots :
  ~ In j slots ->
  toggles on j (map zmk_keymap_layer_deactivate slots) = true
  /\ keymap_after on j (map zmk_keymap_layer_deactivate slots) = on.
Proof.
  induction slots as [|l rest IH]; intros Hnot; [split; reflexivity|].
  cbn [map toggles keymap_after].
  destruct (Nat.eqb_spec l j) as [-> | Hne]; [exfalso; apply Hnot; left; reflexivity|].
  apply IH. intros Hin. apply Hnot. right. exact Hin.
Qed.

Lemma deactivates_present j slots :
  List.NoDup slots -> In j slots ->
  toggles true j (map zmk_keymap_layer_deactivate slots) = true
  /\ keymap_after true j (map zmk_keymap_layer_deactivate slots) = false.
Proof.
  induction 1 as [|l rest Hfresh Hnodup IH]; intros Hin; [destruct Hin|].
  cbn [map toggles keymap_after].
  destruct (Nat.eqb_spec l j) as [-> | Hne].
  - cbn [andb]. apply (deactivates_absent false j rest Hfresh).
  - destruct Hin as [Heq | Hin]; [contradiction | exact (IH Hin)].
Qed.

Lemma active_slots_NoDup ls i n : List.NoDup (active_slots ls i n).
Proof. unfold active_slots. apply List.NoDup_filter, List.seq_NoDup. Qed.

Lemma run_operation_keymap cfg op s j :
  length (layers s) = MAX_LAYERS ->
  let r := run_operation cfg op s in
  toggles (slot_active s j) j (snd r) = true
  /\ keymap_after (slot_active s j) j (snd r) = slot_active (fst r) j.
Proof.
  intros Hlen. cbv zeta.
  destruct op as [now event p1 p2 p3 | now ev | fired]; cbn [run_operation].
  - rewrite handle_event_unfold.
    destruct (uint8_of p1 >=? Z.of_nat MAX_LAYERS); [split; reflexivity|].
    destruct (layers s !! slot_of p1) as [ld|] eqn:Hl; [|split; reflexivity].
    destruct (gate_closed cfg s now ld); [split; reflexivity|].
    destruct (is_motion event); [|split; reflexivity].
    cbv zeta. cbn [fst snd]. unfold slot_active at 3; cbn [layers].
    pose proof (lookup_lt_Some _ _ _ Hl) as Hlt.
    assert (Hrearm : forall l, active (rearm (int16_of p2) l) = active l).
    { intros l. unfold rearm.
      destruct (active l && (int16_of p2 >? 0)); reflexivity. }
    destruct (decide (j = slot_of p1)) as [-> | Hne].
    + rewrite list_lookup_insert_eq by exact Hlt. rewrite Hrearm.
      unfold slot_active. rewrite Hl. unfold accumulate.
      destruct (active ld) eqn:Ha;
        [cbn [fst snd toggles keymap_after]; rewrite Ha; split; reflexivity|].
      destruct (_ >=? int32_of p3); cbn [fst snd toggles keymap_after active];
        rewrite ?Nat.eqb_refl; split; reflexivity.
    + rewrite list_lookup_insert_ne by done.
      fold (slot_active s j). unfold accumulate.
      destruct (active ld); [cbn [fst snd toggles keymap_after]; split; reflexivity|].
      destruct (_ >=? int32_of p3); cbn [fst snd toggles keymap_after];
        [|split; reflexivity].
      destruct (Nat.eqb_spec (slot_of p1) j); [congruence | split; reflexivity].
  - unfold handle_position_state_changed.
    destruct (position_excluded _ _); [split; reflexivity|].
    destruct (state ev); [|split; reflexivity].
    rewrite (deactivate_loop_all _ Hlen). cbn [fst snd].
    assert (Hafter : slot_active
              {| last_tap_time := now;
                 layers := map reset_if_active (layers s);
                 pending_dx := pending_dx s; pending_dy := pending_dy s |} j
            = false).
    { unfold slot_active; cbn [layers]. rewrite list_lookup_fmap.
      destruct (layers s !! j) as [ld|]; cbn; [|reflexivity].
      unfold reset_if_active. destruct (active ld) eqn:Ha; [reflexivity | exact Ha]. }
    rewrite Hafter.
    destruct (slot_active s j) eqn:Hon.
    + apply deactivates_present; [apply active_slots_NoDup|].
      apply active_slots_In. split; [|exact Hon].
      unfold slot_active in Hon. rewrite <- Hlen.
      destruct (layers s !! j) as [ld|] eqn:Hl; [|discriminate].
      eapply lookup_lt_Some; eassumption.
    + apply deactivates_absent. intros Hin.
      apply active_slots_In in Hin as [_ Hin].
      unfold active_at in Hin. unfold slot_active in Hon. congruence.
  - rewrite work_expire_spec.
    assert (Hcleared : slot_active
              (set_layers s (alter clear_work fired (layers s))) j
            = slot_active s j).
    { unfold slot_active, set_layers; cbn [layers].
      destruct (decide (fired = j)) as [-> | Hne];
        [|rewrite list_lookup_alter_ne by done; reflexivity].
      rewrite list_lookup_alter_eq.
      destruct (layers s !! j) as [ld|]; reflexivity. }
    destruct (layers s !! fired) as [ld|] eqn:Hl;
      [|cbn [fst snd toggles keymap_after]; split; [reflexivity | congruence]].
    destruct (bool_decide (fired < MAX_LAYERS)%nat && active ld) eqn:Hc;
      [|cbn [fst snd toggles keymap_after]; split; [reflexivity | congruence]].
    apply andb_true_iff in Hc as [_ Ha].
    cbn [fst snd toggles keymap_after].
    unfold slot_active at 3, set_layers; cbn [layers].
    destruct (Nat.eqb_spec fired j) as [-> | Hne].
    + rewrite list_lookup_insert_eq
        by (rewrite length_alter; eapply lookup_lt_Some; eassumption).
      unfold slot_active. rewrite Hl, Ha. split; reflexivity.
    + rewrite list_lookup_insert_ne by done.
      split; [reflexivity|]. symmetry. exact Hcleared.
Qed.

Lemma run_operations_keymap cfg ops s j :
  length (layers s) = MAX_LAYERS ->
  let r := run_operations cfg ops s in
  toggles (slot_active s j) j (snd r) = true
  /\ keymap_after (slot_active s j) j (snd r) = slot_active (fst r) j.
Proof.
  revert s. induction ops as [|op rest IH]; intros s Hlen;
    [split; reflexivity|].
  cbv zeta. cbn [run_operations].
  pose proof (run_operation_keymap cfg op s j Hlen) as [Ht Hk].
  pose proof (run_operation_length cfg op s) as Hlen1.
  destruct (run_operation cfg op s) as [s1 out1]. cbn [fst snd] in *.
  specialize (IH s1 ltac:(congruence)). cbv zeta in IH.
  destruct (run_operations cfg rest s1) as [s2 out2]. cbn [fst snd] in *.
  rewrite toggles_app, keymap_after_app, Ht, Hk. exact IH.
Qed.

(** X14: over any run from initialisation, the commands for a layer
    alternate, starting with an activate (a layer that is on is never
    activated again, one that is off never deactivated), and the layer is
    on in the keymap at the end exactly when its slot is active. *)
Theorem keymap_follows_slots cfg ops j :
  let r := run_operations cfg ops threshold_temp_layer_init in
  toggles false j (snd r) = true
  /\ keymap_after false j (snd r) = slot_active (fst r) j.
Proof.
  cbv zeta.
  assert (Hoff : slot_active threshold_temp_layer_init j = false).
  { unfold slot_active; cbn [threshold_temp_layer_init layers].
    destruct (replicate MAX_LAYERS (deactivated None) !! j) as [ld|] eqn:Hl;
      [|reflexivity].
    apply lookup_replicate in Hl as [-> _]. reflexivity. }
  rewrite <- Hoff at 1 2.
  apply run_operations_keymap. reflexivity.
Qed.

(** ** The single-layer revision *)

Lemma active_slots_single ls L i n :
  (forall j, j <> L -> active_at ls j = false) ->
  active_slots ls i n
  = if active_at ls L && bool_decide (i <= L < i + n)%nat then [L] else [].
Proof.
  intros Hothers. unfold active_slots. revert i.
  induction n as [|n IH]; intros i; cbn [seq List.filter].
  - rewrite bool_decide_eq_false_2 by lia. rewrite andb_false_r. reflexivity.
  - rewrite IH. destruct (decide (i = L)) as [-> | Hne].
    + rewrite (bool_decide_eq_true_2 (L <= L < L + S n)%nat) by lia.
      rewrite (bool_decide_eq_false_2 (S L <= L < S L + n)%nat) by lia.
      rewrite andb_false_r, andb_true_r. destruct (active_at ls L); reflexivity.
    + rewrite (Hothers i Hne).
      rewrite (bool_decide_ext (S i <= L < S i + n)%nat
                               (i <= L < i + S n)%nat) by lia.
      reflexivity.
Qed.

Lemma simulation_step cfg1 param2 param3 op d s :
  0 <= SingleLayer.layer cfg1 < Z.of_nat MAX_LAYERS ->
  int16_of param2 = SingleLayer.timeout cfg1 ->
  int32_of param3 = SingleLayer.activation_threshold cfg1 ->
  embeds cfg1 d s ->
  let r1 := SingleLayer.run_operation cfg1 op d in
  let r := run_operation (multi_config cfg1)
             (multi_operation cfg1 param2 param3 op) s in
  embeds cfg1 (fst r1) (fst r) /\ snd r = snd r1.
Proof.
  intros HL Ht HT (Hlast & Hx & Hy & Hlen & Hslot & Hothers). cbv zeta.
  set (L := Z.to_nat (SingleLayer.layer cfg1)) in *.
  assert (HLlt : (L < length (layers s))%nat) by (unfold L, MAX_LAYERS in *; lia).
  assert (Hu8 : uint8_of (SingleLayer.layer cfg1) = SingleLayer.layer cfg1).
  { unfold uint8_of. apply Z.mod_small. unfold MAX_LAYERS in HL. lia. }
  assert (Hslotof : slot_of (SingleLayer.layer cfg1) = L).
  { unfold slot_of. rewrite Hu8. reflexivity. }
  destruct d as [acc on last work dx dy].
  cbn [SingleLayer.last_tap_time SingleLayer.pending_dx SingleLayer.pending_dy
       SingleLayer.accumulated_distance SingleLayer.layer_active
       SingleLayer.layer_disable_work] in *.
  destruct op as [now event | now ev |];
    cbn [SingleLayer.run_operation multi_operation run_operation].
  - rewrite handle_event_unfold, Hu8, Hslotof, Hslot.
    destruct (Z.geb_spec (SingleLayer.layer cfg1) (Z.of_nat MAX_LAYERS));
      [lia|].
    unfold SingleLayer.threshold_temp_layer_handle_event, gate_closed,
      buffered_dx, buffered_dy.
    cbn [SingleLayer.last_tap_time SingleLayer.pending_dx
         SingleLayer.pending_dy SingleLayer.accumulated_distance
         SingleLayer.layer_active SingleLayer.layer_disable_work
         multi_config require_prior_idle_ms active].
    rewrite Hlast, Hx, Hy, Ht, HT.
    fold (is_motion event).
    destruct (negb on && (SingleLayer.require_prior_idle_ms cfg1 >? 0)
              && (int64_of (now - last)
                  <? SingleLayer.require_prior_idle_ms cfg1)).
    { cbn [fst snd]. repeat split; assumption. }
    destruct (is_motion event).
    2:{ cbn [fst snd]. repeat split; assumption. }
    cbv zeta. unfold accumulate, rearm. cbn [active accumulated_distance disable_work].
    destruct on; cbn [negb andb orb fst snd active accumulated_distance disable_work].
    + split; [|reflexivity]. unfold embeds.
      cbn [last_tap_time pending_dx pending_dy layers
           SingleLayer.last_tap_time SingleLayer.pending_dx
           SingleLayer.pending_dy SingleLayer.accumulated_distance
           SingleLayer.layer_active SingleLayer.layer_disable_work].
      fold L. rewrite length_insert, list_lookup_insert_eq by exact HLlt.
      repeat split; try assumption;
        first [ destruct (SingleLayer.timeout cfg1 >? 0); reflexivity
              | intros j ld Hj; rewrite list_lookup_insert_ne by done;
                apply Hothers, Hj ].
    + destruct (_ >=? SingleLayer.activation_threshold cfg1);
        cbn [negb andb orb fst snd active accumulated_distance disable_work];
        (split; [|reflexivity]); unfold embeds;
        cbn [last_tap_time pending_dx pending_dy layers
             SingleLayer.last_tap_time SingleLayer.pending_dx
             SingleLayer.pending_dy SingleLayer.accumulated_distance
             SingleLayer.layer_active SingleLayer.layer_disable_work];
        fold L; rewrite length_insert, list_lookup_insert_eq by exact HLlt;
        repeat split; try assumption;
        first [ destruct (SingleLayer.timeout cfg1 >? 0); reflexivity
              | reflexivity
              | intros j ld Hj; rewrite list_lookup_insert_ne by done;
                apply Hothers, Hj ].
  - unfold handle_position_state_changed,
      SingleLayer.handle_position_state_changed.
    cbn [multi_config excluded_positions SingleLayer.layer_active
         SingleLayer.accumulated_distance SingleLayer.layer_disable_work
         SingleLayer.pending_dx SingleLayer.pending_dy].
    destruct (position_excluded _ _).
    { cbn [fst snd]. repeat split; assumption. }
    destruct (state ev).
    2:{ cbn [fst snd]. repeat split; assumption. }
    rewrite (deactivate_loop_all _ Hlen).
    rewrite (active_slots_single (layers s) L 0 MAX_LAYERS).
    2:{ intros j Hj. unfold active_at.
        destruct (layers s !! j) as [ld|] eqn:Hl; [|reflexivity].
        exact (Hothers j ld Hj Hl). }
    rewrite bool_decide_eq_true_2 by (rewrite <- Hlen; lia).
    unfold active_at. rewrite Hslot. cbn [active andb].
    assert (Hreset : forall j ld, j <> L ->
              map reset_if_active (layers s) !! j = Some ld ->
              active ld = false).
    { intros j ld Hj. rewrite list_lookup_fmap.
      destruct (layers s !! j) as [ld0|] eqn:Hl; cbn; [|discriminate].
      intros [= <-]. unfold reset_if_active.
      rewrite (Hothers j ld0 Hj Hl). exact (Hothers j ld0 Hj Hl). }
    destruct on; cbn [fst snd map]; (split; [|reflexivity]); unfold embeds;
      cbn [last_tap_time pending_dx pending_dy layers
           SingleLayer.last_tap_time SingleLayer.pending_dx
           SingleLayer.pending_dy SingleLayer.accumulated_distance
           SingleLayer.layer_active SingleLayer.layer_disable_work];
      fold L; rewrite length_map, list_lookup_fmap, Hslot;
      (repeat split; try assumption; exact Hreset).
  - rewrite work_expire_spec. fold L. rewrite Hslot. cbn [active].
    rewrite bool_decide_eq_true_2 by (rewrite <- Hlen; exact HLlt).
    unfold SingleLayer.work_expire, SingleLayer.layer_disable_work_handler.
    cbn [SingleLayer.last_tap_time SingleLayer.pending_dx
         SingleLayer.pending_dy SingleLayer.accumulated_distance
         SingleLayer.layer_active SingleLayer.layer_disable_work andb].
    assert (Hkept : forall j ld, j <> L ->
              alter clear_work L (layers s) !! j = Some ld ->
              active ld = false).
    { intros j ld Hj. rewrite list_lookup_alter_ne by done. apply Hothers, Hj. }
    destruct on; cbn [fst snd]; (split; [|reflexivity]); unfold embeds, set_layers;
      cbn [last_tap_time pending_dx pending_dy layers
           SingleLayer.last_tap_time SingleLayer.pending_dx
           SingleLayer.pending_dy SingleLayer.accumulated_distance
           SingleLayer.layer_active SingleLayer.layer_disable_work];
      fold L.
    + rewrite length_insert, length_alter.
      rewrite list_lookup_insert_eq by (rewrite length_alter; exact HLlt).
      repeat split; try assumption.
      intros j ld Hj. rewrite list_lookup_insert_ne by done. apply Hkept, Hj.
    + rewrite length_alter, list_lookup_alter_eq, Hslot.
      repeat split; try assumption.
Qed.

(** X15: the single-layer revision is the multi-layer processor used with
    one binding.  For a layer below [MAX_LAYERS], any run of the
    single-layer processor from initialisation issues the same commands as
    the multi-layer processor driven with the same events and the binding
    (layer, timeout, threshold) of the single-layer configuration, and its
    state is the slot of that layer, all other slots staying inactive. *)
Theorem single_layer_simulated cfg1 param2 param3 ops :
  0 <= SingleLayer.layer cfg1 < Z.of_nat MAX_LAYERS ->
  int16_of param2 = SingleLayer.timeout cfg1 ->
  int32_of param3 = SingleLayer.activation_threshold cfg1 ->
  let r1 := SingleLayer.run_operations cfg1 ops
              SingleLayer.threshold_temp_layer_init in
  let r := run_operations (multi_config cfg1)
             (map (multi_operation cfg1 param2 param3) ops)
             threshold_temp_layer_init in
  snd r = snd r1 /\ embeds cfg1 (fst r1) (fst r).
Proof.
  intros HL Ht HT. cbv zeta.
  assert (Hinit : embeds cfg1 SingleLayer.threshold_temp_layer_init
                    threshold_temp_layer_init).
  { unfold embeds, threshold_temp_layer_init,
      SingleLayer.threshold_temp_layer_init.
    cbn [last_tap_time pending_dx pending_dy layers
         SingleLayer.last_tap_time SingleLayer.pending_dx
         SingleLayer.pending_dy SingleLayer.accumulated_distance
         SingleLayer.layer_active SingleLayer.layer_disable_work].
    split; [reflexivity|]. split; [reflexivity|]. split; [reflexivity|].
    split; [apply length_replicate|]. split.
    - apply lookup_replicate_2. unfold MAX_LAYERS in *. lia.
    - intros j ld _ Hl. apply lookup_replicate in Hl as [-> _]. reflexivity. }
  revert Hinit.
  generalize SingleLayer.threshold_temp_layer_init threshold_temp_layer_init.
  induction ops as [|op rest IH]; intros d s Hemb; [split; [reflexivity | exact Hemb]|].
  cbn [map run_operations SingleLayer.run_operations].
  destruct (simulation_step cfg1 param2 param3 op d s HL Ht HT Hemb)
    as [Hemb1 Hout1].
  destruct (SingleLayer.run_operation cfg1 op d) as [d1 out1].
  destruct (run_operation (multi_config cfg1)
              (multi_operation cfg1 param2 param3 op) s) as [s1 out1'].
  cbn [fst snd] in *. subst out1'.
  specialize (IH d1 s1 Hemb1).
  destruct (SingleLayer.run_operations cfg1 rest d1) as [d2 out2].
  destruct (run_operations (multi_config cfg1)
              (map (multi_operation cfg1 param2 param3) rest) s1)
    as [s2 out2'].
  cbn [fst snd] in *. destruct IH as [-> Hemb2]. split; [reflexivity | exact Hemb2].
Qed.

Lemma single_layer_simulated_witness :
  let cfg1 := {| SingleLayer.layer := 1; SingleLayer.timeout := 500;
                 SingleLayer.activation_threshold := 100;
                 SingleLayer.require_prior_idle_ms := 0;
                 SingleLayer.excluded_positions := [40] |} in
  let ops := [SingleLayer.motion_sample 10 (rel_x 60);
              SingleLayer.motion_sample 20 (rel_y (-50));
              SingleLayer.key_event 30 {| position := 5; state := true |};
              SingleLayer.motion_sample 40 (rel_x 120);
              SingleLayer.timer_fire] in
  snd (SingleLayer.run_operations cfg1 ops
         SingleLayer.threshold_temp_layer_init)
  = [zmk_keymap_layer_activate 1; zmk_keymap_layer_deactivate 1;
     zmk_keymap_layer_activate 1; zmk_keymap_layer_deactivate 1]
  /\ snd (run_operations (multi_config cfg1)
            (map (multi_operation cfg1 500 100) ops)
            threshold_temp_layer_init)
     = snd (SingleLayer.run_operations cfg1 ops
              SingleLayer.threshold_temp_layer_init).
Proof.
  cbv zeta. split; [vm_compute; reflexivity|].
  exact (proj1 (single_layer_simulated
    {| SingleLayer.layer := 1; SingleLayer.timeout := 500;
       SingleLayer.activation_threshold := 100;
       SingleLayer.require_prior_idle_ms := 0;
       SingleLayer.excluded_positions := [40] |}
    500 100 _
    ltac:(vm_compute; split; [discriminate | reflexivity])
    ltac:(reflexivity) ltac:(reflexivity))).
Defined.

(** X16: the single-layer revision, for any layer number: over any run
    from initialisation its commands are all for its layer and alternate,
    starting with an activate, and the layer is on in the keymap at the end
    exactly when [layer_active] is set. *)
Theorem single_layer_keymap cfg1 ops :
  let r := SingleLayer.run_operations cfg1 ops
             SingleLayer.threshold_temp_layer_init in
  let L := Z.to_nat (SingleLayer.layer cfg1) in
  Forall (fun c => command_layer c = L) (snd r)
  /\ toggles false L (snd r) = true
  /\ keymap_after false L (snd r) = SingleLayer.layer_active (fst r).
Proof.
  cbv zeta. set (L := Z.to_nat (SingleLayer.layer cfg1)).
  change false with
    (SingleLayer.layer_active SingleLayer.threshold_temp_layer_init) at 1 2.
  generalize SingleLayer.threshold_temp_layer_init.
  induction ops as [|op rest IH]; intros d;
    [split; [constructor | split; reflexivity]|].
  cbn [SingleLayer.run_operations].
  assert (Hstep :
    Forall (fun c => command_layer c = L)
      (snd (SingleLayer.run_operation cfg1 op d))
    /\ toggles (SingleLayer.layer_active d) L
         (snd (SingleLayer.run_operation cfg1 op d)) = true
    /\ keymap_after (SingleLayer.layer_active d) L
         (snd (SingleLayer.run_operation cfg1 op d))
       = SingleLayer.layer_active (fst (SingleLayer.run_operation cfg1 op d))).
  { destruct d as [acc on last work dx dy].
    destruct op as [now event | now ev |]; cbn [SingleLayer.run_operation].
    - unfold SingleLayer.threshold_temp_layer_handle_event.
      cbn [SingleLayer.layer_active SingleLayer.accumulated_distance].
      destruct (negb on && _ && _);
        [split; [constructor | split; reflexivity]|].
      destruct (_ && _); [|split; [constructor | split; reflexivity]].
      cbv zeta. fold L. destruct on; cbn [negb andb orb fst snd];
        [split; [constructor | split; reflexivity]|].
      destruct (_ >=? SingleLayer.activation_threshold cfg1);
        cbn [fst snd toggles keymap_after SingleLayer.layer_active];
        rewrite ?Nat.eqb_refl;
        (split; [repeat constructor | split; reflexivity]).
    - unfold SingleLayer.handle_position_state_changed.
      cbn [SingleLayer.layer_active]. fold L.
      destruct (position_excluded _ _);
        [split; [constructor | split; reflexivity]|].
      destruct (state ev); [|split; [constructor | split; reflexivity]].
      destruct on; cbn [fst snd toggles keymap_after SingleLayer.layer_active];
        rewrite ?Nat.eqb_refl;
        (split; [repeat constructor | split; reflexivity]).
    - unfold SingleLayer.work_expire, SingleLayer.layer_disable_work_handler.
      cbn [SingleLayer.layer_active]. fold L.
      destruct on; cbn [fst snd toggles keymap_after SingleLayer.layer_active];
        rewrite ?Nat.eqb_refl;
        (split; [repeat constructor | split; reflexivity]). }
  destruct Hstep as (Hall1 & Ht1 & Hk1).
  destruct (SingleLayer.run_operation cfg1 op d) as [d1 out1].
  cbn [fst snd] in *. specialize (IH d1).
  destruct (SingleLayer.run_operations cfg1 rest d1) as [d2 out2].
  cbn [fst snd] in *. destruct IH as (Hall2 & Ht2 & Hk2).
  split; [apply Forall_app; split; assumption|].
  rewrite toggles_app, keymap_after_app, Ht1, Hk1. split; assumption.
Qed.

(** X17: a second press of a position that is not excluded, with no sample
    in between, issues no command and changes only the time of the last
    key press. *)
Theorem second_press_only_updates_time cfg t1 ev1 t2 ev2 s :
  length (layers s) = MAX_LAYERS ->
  ~ In (position ev1) (excluded_positions cfg) -> state ev1 = true ->
  ~ In (position ev2) (excluded_positions cfg) -> state ev2 = true ->
  let s1 := fst (handle_position_state_changed cfg t1 ev1 s) in
  handle_position_state_changed cfg t2 ev2 s1
  = ({| last_tap_time := t2; layers := layers s1;
        pending_dx := pending_dx s1; pending_dy := pending_dy s1 |}, []).
Proof.
  intros Hlen Hn1 Hp1 Hn2 Hp2. cbv zeta.
  unfold handle_position_state_changed.
  destruct (position_excluded (excluded_positions cfg) (position ev1)) eqn:Hex1.
  { apply position_excluded_In in Hex1. contradiction. }
  destruct (position_excluded (excluded_positions cfg) (position ev2)) eqn:Hex2.
  { apply position_excluded_In in Hex2. contradiction. }
  rewrite Hp1, Hp2, (deactivate_loop_all _ Hlen).
  cbn [fst layers pending_dx pending_dy].
  rewrite deactivate_loop_all by (rewrite length_map; exact Hlen).
  assert (Hoff : forall j, active_at (map reset_if_active (layers s)) j = false).
  { intros j. unfold active_at. rewrite list_lookup_fmap.
    destruct (layers s !! j) as [ld|]; cbn; [|reflexivity].
    unfold reset_if_active. destruct (active ld) eqn:Ha; [reflexivity | exact Ha]. }
  rewrite (active_slots_single _ 0%nat) by (intros j _; apply Hoff).
  rewrite Hoff. cbn [andb map]. f_equal. f_equal.
  apply list_eq. intros j. rewrite !list_lookup_fmap.
  destruct (layers s !! j) as [ld|]; cbn; [|reflexivity].
  f_equal. unfold reset_if_active. destruct (active ld) eqn:Ha; cbn; [reflexivity|].
  rewrite Ha. reflexivity.
Qed.

Lemma second_press_only_updates_time_witness :
  let cfg := {| require_prior_idle_ms := 0; excluded_positions := [40] |} in
  let ev := {| position := 5; state := true |} in
  let s1 := fst (handle_position_state_changed cfg 1000 ev two_active) in
  snd (handle_position_state_changed cfg 1000 ev two_active)
  = [zmk_keymap_layer_deactivate 1; zmk_keymap_layer_deactivate 6]
  /\ snd (handle_position_state_changed cfg 1100 ev s1) = [].
Proof.
  cbv zeta. split; [reflexivity|].
  rewrite (second_press_only_updates_time
             {| require_prior_idle_ms := 0; excluded_positions := [40] |}
             1000 {| position := 5; state := true |}
             1100 {| position := 5; state := true |} two_active
             ltac:(reflexivity)
             ltac:(cbn; intros [H | []]; discriminate) ltac:(reflexivity)
             ltac:(cbn; intros [H | []]; discriminate) ltac:(reflexivity)).
  reflexivity.
Defined.

(** ** Activation among other operations *)






